(** * X-Scheduler: the scheduled-post store and the due-post processor

    A shallow embedding of [x-scheduler/scripts/scheduler.py]: the pending
    directory [scheduled-posts/], the archive [scheduled-posts/done/], the
    commands [add], [list], [cancel], [history] and [post-due], and the
    properties the specification states about them. *)

From Stdlib Require Import ZArith String Ascii List Lia Sorted Permutation Bool DecimalString.
From stdpp Require Import base option gmap strings list fin_maps.

Local Open Scope Z_scope.

(** ** hashlib.md5 (RFC 1321), on 32-bit words held in [Z] *)
Module Md5.

Definition mask32 (x : Z) : Z := Z.land x 4294967295.

Definition add32 (x y : Z) : Z := mask32 (x + y).

Definition not32 (x : Z) : Z := Z.lxor x 4294967295.

Definition leftrotate (x : Z) (c : Z) : Z :=
  mask32 (Z.lor (Z.shiftl x c) (Z.shiftr x (32 - c))).

Definition shifts : list Z :=
  [ 7; 12; 17; 22; 7; 12; 17; 22; 7; 12; 17; 22; 7; 12; 17; 22;
    5; 9; 14; 20; 5; 9; 14; 20; 5; 9; 14; 20; 5; 9; 14; 20;
    4; 11; 16; 23; 4; 11; 16; 23; 4; 11; 16; 23; 4; 11; 16; 23;
    6; 10; 15; 21; 6; 10; 15; 21; 6; 10; 15; 21; 6; 10; 15; 21 ]%Z.

(** [floor (2^32 * abs (sin (i + 1)))] for [i = 0..63]. *)
Definition sines : list Z :=
  [ 3614090360; 3905402710; 606105819; 3250441966;
    4118548399; 1200080426; 2821735955; 4249261313;
    1770035416; 2336552879; 4294925233; 2304563134;
    1804603682; 4254626195; 2792965006; 1236535329;
    4129170786; 3225465664; 643717713; 3921069994;
    3593408605; 38016083; 3634488961; 3889429448;
    568446438; 3275163606; 4107603335; 1163531501;
    2850285829; 4243563512; 1735328473; 2368359562;
    4294588738; 2272392833; 1839030562; 4259657740;
    2763975236; 1272893353; 4139469664; 3200236656;
    681279174; 3936430074; 3572445317; 76029189;
    3654602809; 3873151461; 530742520; 3299628645;
    4096336452; 1126891415; 2878612391; 4237533241;
    1700485571; 2399980690; 4293915773; 2240044497;
    1873313359; 4264355552; 2734768916; 1309151649;
    4149444226; 3174756917; 718787259; 3951481745 ]%Z.

Definition nthZ (l : list Z) (i : Z) : Z := nth (Z.to_nat i) l 0%Z.

(** The message bytes, the 0x80 marker, zero padding up to 56 modulo 64 and
    the bit length as eight little-endian bytes. *)
Definition le_bytes (n : nat) (x : Z) : list Z :=
  map (fun k => Z.land (Z.shiftr x (8 * Z.of_nat k)) 255) (seq 0 n).

Definition pad (msg : list Z) : list Z :=
  let len := Z.of_nat (List.length msg) in
  let zeros := Z.to_nat ((55 - len) mod 64) in
  msg ++ 128%Z :: repeat 0%Z zeros ++ le_bytes 8 (Z.land (8 * len) 18446744073709551615).

Definition word_of (b0 b1 b2 b3 : Z) : Z :=
  Z.lor b0 (Z.lor (Z.shiftl b1 8) (Z.lor (Z.shiftl b2 16) (Z.shiftl b3 24))).

Fixpoint words (bs : list Z) : list Z :=
  match bs with
  | b0 :: b1 :: b2 :: b3 :: rest => word_of b0 b1 b2 b3 :: words rest
  | _ => []
  end.

Record regs := Regs { rA : Z; rB : Z; rC : Z; rD : Z }.

Definition init : regs :=
  Regs 1732584193 4023233417 2562383102 271733878.

Definition round (m : list Z) (r : regs) (i : Z) : regs :=
  let '(Regs a b c d) := r in
  let '(f, g) :=
    if i <? 16 then (Z.lor (Z.land b c) (Z.land (not32 b) d), i)
    else if i <? 32 then (Z.lor (Z.land d b) (Z.land (not32 d) c), (5 * i + 1) mod 16)
    else if i <? 48 then (Z.lxor b (Z.lxor c d), (3 * i + 5) mod 16)
    else (Z.lxor c (Z.lor b (not32 d)), (7 * i) mod 16) in
  let f' := add32 (add32 (add32 f a) (nthZ sines i)) (nthZ m g) in
  Regs d (add32 b (leftrotate f' (nthZ shifts i))) b c.

Definition chunk (r : regs) (m : list Z) : regs :=
  let r' := fold_left (round m) (map Z.of_nat (seq 0 64)) r in
  Regs (add32 (rA r) (rA r')) (add32 (rB r) (rB r'))
       (add32 (rC r) (rC r')) (add32 (rD r) (rD r')).

Fixpoint chunks (fuel : nat) (ws : list Z) (r : regs) : regs :=
  match fuel with
  | O => r
  | S fuel' =>
      match ws with
      | [] => r
      | _ => chunks fuel' (skipn 16 ws) (chunk r (firstn 16 ws))
      end
  end.

Definition digest (msg : list Z) : list Z :=
  let ws := words (pad msg) in
  let r := chunks (List.length ws) ws init in
  le_bytes 4 (rA r) ++ le_bytes 4 (rB r) ++ le_bytes 4 (rC r) ++ le_bytes 4 (rD r).

Definition hex_digit (n : Z) : ascii :=
  if n <? 10 then ascii_of_N (Z.to_N (48 + n)) else ascii_of_N (Z.to_N (87 + n)).

Fixpoint hex (bs : list Z) : string :=
  match bs with
  | [] => EmptyString
  | b :: rest =>
      String (hex_digit (Z.shiftr b 4)) (String (hex_digit (Z.land b 15)) (hex rest))
  end.

Definition encode (s : string) : list Z :=
  map (fun c => Z.of_N (N_of_ascii c)) (list_ascii_of_string s).

(** [hashlib.md5(s.encode()).hexdigest()] *)
Definition hexdigest (s : string) : string := hex (digest (encode s)).

End Md5.

Arguments Md5.hexdigest : simpl never.


(** ** datetime: wall-clock fields, fixed UTC offsets, formatting, ordering *)
Module PyTime.

(** The fields of a [datetime] without its [tzinfo]. *)
Record naive := Naive {
  year : Z; month : Z; day : Z;
  hour : Z; minute : Z; second : Z; microsecond : Z }.

(** A [datetime] as [fromisoformat] and [now(timezone.utc)] give it:
    [utcoffset = None] is a naive value, [Some s] an aware one, [s] seconds
    east of UTC. *)
Record datetime := DateTime { wall : naive; utcoffset : option Z }.

Definition digit (n : Z) : ascii := ascii_of_N (Z.to_N (48 + n mod 10)).

Definition dec2 (n : Z) : string := String (digit (n / 10)) (String (digit n) "").

Definition dec4 (n : Z) : string :=
  String (digit (n / 1000)) (String (digit (n / 100)) (dec2 n)).

Definition dec6 (n : Z) : string :=
  String (digit (n / 100000)) (String (digit (n / 10000)) (dec4 n)).

(** [d.strftime('%Y%m%d_%H%M%S')], the year zero-padded to four digits as
    the library documents [%Y]. *)
Definition strftime_compact (d : naive) : string :=
  dec4 (year d) +:+ dec2 (month d) +:+ dec2 (day d) +:+ "_" +:+
  dec2 (hour d) +:+ dec2 (minute d) +:+ dec2 (second d).

Definition isoformat_naive (d : naive) : string :=
  dec4 (year d) +:+ "-" +:+ dec2 (month d) +:+ "-" +:+ dec2 (day d) +:+ "T" +:+
  dec2 (hour d) +:+ ":" +:+ dec2 (minute d) +:+ ":" +:+ dec2 (second d) +:+
  (if microsecond d =? 0 then "" else "." +:+ dec6 (microsecond d)).

Definition format_offset (off : Z) : string :=
  let a := Z.abs off in
  (if off <? 0 then "-" else "+") +:+ dec2 (a / 3600) +:+ ":" +:+ dec2 (a mod 3600 / 60) +:+
  (if a mod 60 =? 0 then "" else ":" +:+ dec2 (a mod 60)).

(** [d.isoformat()] *)
Definition isoformat (d : datetime) : string :=
  isoformat_naive (wall d) +:+
  match utcoffset d with None => "" | Some off => format_offset off end.

Definition is_leap (y : Z) : bool :=
  (y mod 4 =? 0) && (negb (y mod 100 =? 0) || (y mod 400 =? 0)).

Definition days_in_month (y m : Z) : Z :=
  if (m =? 2) && is_leap y then 29
  else nth (Z.to_nat m) [0; 31; 28; 31; 30; 31; 30; 31; 31; 30; 31; 30; 31] 0.

Definition days_before_year (y : Z) : Z :=
  let y := y - 1 in y * 365 + y / 4 - y / 100 + y / 400.

Definition days_before_month (y m : Z) : Z :=
  nth (Z.to_nat m) [0; 0; 31; 59; 90; 120; 151; 181; 212; 243; 273; 304; 334] 0
  + (if (2 <? m) && is_leap y then 1 else 0).

Definition ymd2ord (y m d : Z) : Z :=
  days_before_year y + days_before_month y m + d.

(** Microseconds of the wall-clock fields since the start of ordinal day 0. *)
Definition wall_micros (d : naive) : Z :=
  (((ymd2ord (year d) (month d) (day d) * 24 + hour d) * 60 + minute d) * 60
   + second d) * 1000000 + microsecond d.

(** The instant an aware [datetime] denotes: its wall clock less its offset. *)
Definition instant (d : datetime) : Z :=
  wall_micros (wall d) - default 0 (utcoffset d) * 1000000.

(** [a > b] on aware values: Python compares the UTC instants. *)
Definition gt (a b : datetime) : bool := instant b <? instant a.

(** [a <= b] on two values that share one [tzinfo] object: Python compares
    the wall-clock fields and leaves the offsets out. *)
Definition wall_le (a b : naive) : bool := wall_micros a <=? wall_micros b.

(** [datetime.now(timezone.utc)] from a clock reading. *)
Definition utc (t : naive) : datetime := DateTime t (Some 0).

(** [if d.tzinfo is None: d = d.replace(tzinfo=timezone.utc)] *)
Definition assume_utc (d : datetime) : datetime :=
  match utcoffset d with
  | None => DateTime (wall d) (Some 0)
  | Some _ => d
  end.

End PyTime.

Arguments PyTime.instant : simpl never.
Arguments PyTime.gt : simpl never.
Arguments PyTime.wall_le : simpl never.
Arguments PyTime.isoformat : simpl never.
Arguments PyTime.isoformat_naive : simpl never.
Arguments PyTime.strftime_compact : simpl never.

(** ** The records: what [json.load] returns and [json.dump] writes *)

(** A field value. The program itself writes strings and [None]; booleans
    and integers are what else a hand-edited record may hold. *)
Inductive jval := JNull | JBool (b : bool) | JInt (n : Z) | JStr (s : string).

(** A Python [dict] with string keys, in insertion order. *)
Definition dict := list (string * jval).

(** [d.get(k)] *)
Fixpoint dict_get (k : string) (d : dict) : option jval :=
  match d with
  | [] => None
  | (k', v) :: d' => if String.eqb k k' then Some v else dict_get k d'
  end.

(** [d[k] = v]: the value is replaced in place, a new key goes last. *)
Fixpoint dict_set (k : string) (v : jval) (d : dict) : dict :=
  match d with
  | [] => [(k, v)]
  | (k', v') :: d' =>
      if String.eqb k k' then (k, v) :: d' else (k', v') :: dict_set k v d'
  end.

(** Truth value of a field, as [if data.get(k):] tests it. *)
Definition truthy (v : jval) : bool :=
  match v with
  | JNull => false
  | JBool b => b
  | JInt n => negb (n =? 0)
  | JStr s => negb (String.eqb s "")
  end.

(** [str(v)], as an f-string interpolates a field. *)
Definition py_str (v : jval) : string :=
  match v with
  | JNull => "None"
  | JBool true => "True"
  | JBool false => "False"
  | JInt n => DecimalString.NilZero.string_of_int (Z.to_int n)
  | JStr s => s
  end.

(** [a < b] between two field values; [None] is Python's [TypeError]. *)
Definition py_lt (a b : jval) : option bool :=
  let num v := match v with
               | JBool b => Some (if b then 1 else 0)
               | JInt n => Some n
               | _ => None
               end in
  match a, b with
  | JStr s, JStr t => Some (String.ltb s t)
  | _, _ => match num a, num b with
            | Some x, Some y => Some (x <? y)
            | _, _ => None
            end
  end.

(** What a file of a directory holds, as [json.load] sees it: text that is
    no JSON document, a document that is no object (a list, a string, a
    number), or an object. *)
Inductive file := NotJson | JsonOther | JsonObject (d : dict).

(** A directory: its files by name. Names are single path components. *)
Abbreviation directory := (gmap string file).

(** ** Errors and output *)

(** Errors that end a command: nothing in the program catches them. *)
Inductive exn :=
| FileNotFoundError
| JSONDecodeError
| AttributeError
| TypeError
| KeyError (key : string)
| ValueError
| ZoneInfoNotFoundError (key : string)
| SystemExit (code : Z).

(** What [post_to_x] raises; all are caught by [except Exception]. *)
Inductive publish_error :=
| PRuntimeError (msg : string)
| PValueError (msg : string)
| PKeyError (key : string)
| PClientError (msg : string).

(** [str(e)] *)
Definition str_error (e : publish_error) : string :=
  match e with
  | PRuntimeError msg | PValueError msg | PClientError msg => msg
  | PKeyError key => "'" +:+ key +:+ "'"
  end.

Definition result (A : Type) : Type := exn + A.

Inductive stream := Stdout | Stderr.

(** One constructor for each place that prints. *)
Inductive message :=
| BadDatetime (given : string)
| DatetimeFormatHint
| PastWarning (scheduled_at : string)
| PastNote
| Added (post : dict)
| NoPending
| ListHeader (count : nat)
| ListEntry (post : dict)
| CancelNotFound (post_id : string)
| Cancelled (post_id : string)
| NoHistory
| HistoryHeader (count : nat)
| HistoryEntry (post : dict)
| NoScheduledDir
| Posting (id : jval)
| PostSucceeded (url : jval)
| PostFailed (e : publish_error)
| Completed (count : nat).

(** ** Sorting, as [sorted] and [list.sort] do it *)

(** Stable insertion: [x] goes in front of the first element it is not
    above. *)
Fixpoint insert_name (x : string) (l : list string) : list string :=
  match l with
  | [] => [x]
  | y :: l' => if String.leb x y then x :: y :: l' else y :: insert_name x l'
  end.

Definition sort_names (l : list string) : list string :=
  fold_right insert_name [] l.

(** An element beside its sort key. [list.sort(key=...)] compares keys
    with [<] only and is stable; a comparison that raises ends the sort. *)
Fixpoint insert_keyed {A : Type} (x : jval * A) (l : list (jval * A))
  : result (list (jval * A)) :=
  match l with
  | [] => inr [x]
  | y :: l' =>
      match py_lt (fst y) (fst x) with
      | None => inl TypeError
      | Some false => inr (x :: y :: l')
      | Some true =>
          match insert_keyed x l' with
          | inl e => inl e
          | inr l'' => inr (y :: l'')
          end
      end
  end.

Fixpoint sort_keyed {A : Type} (l : list (jval * A)) : result (list (jval * A)) :=
  match l with
  | [] => inr []
  | x :: l' =>
      match sort_keyed l' with
      | inl e => inl e
      | inr s => insert_keyed x s
      end
  end.

(** The key function is applied to every element before any comparison. *)
Fixpoint with_keys {A : Type} (key : A -> result jval) (posts : list A)
  : result (list (jval * A)) :=
  match posts with
  | [] => inr []
  | p :: rest =>
      match key p with
      | inl e => inl e
      | inr k =>
          match with_keys key rest with
          | inl e => inl e
          | inr ks => inr ((k, p) :: ks)
          end
      end
  end.

(** [posts.sort(key=key)] *)
Definition sort_posts {A : Type} (key : A -> result jval) (posts : list A)
  : result (list A) :=
  match with_keys key posts with
  | inl e => inl e
  | inr ks =>
      match sort_keyed ks with
      | inl e => inl e
      | inr s => inr (map snd s)
      end
  end.

(** [posts.sort(key=key, reverse=True)]: the list is reversed, sorted
    stably and reversed again, so that equal keys keep their order. *)
Definition sort_posts_reverse {A : Type} (key : A -> result jval) (posts : list A)
  : result (list A) :=
  match with_keys key posts with
  | inl e => inl e
  | inr ks =>
      match sort_keyed (rev ks) with
      | inl e => inl e
      | inr s => inr (map snd (rev s))
      end
  end.

(** ** File names *)

Definition ends_with (suffix s : string) : bool :=
  let n := String.length s in
  let m := String.length suffix in
  (m <=? n)%nat && String.eqb (substring (n - m) m s) suffix.

(** The filter of [glob_json]: [*.json], less the [._] files macOS leaves. *)
Definition json_name (name : string) : bool :=
  ends_with ".json" name && negb (String.prefix "._" name).

(** [glob_json(directory)] *)
Definition glob_json (d : directory) : list string :=
  sort_names (List.filter json_name (map fst (map_to_list d))).

(** [data.get('status') == 'pending'] *)
Definition is_pending (data : dict) : bool :=
  match dict_get "status" data with
  | Some (JStr s) => String.eqb s "pending"
  | _ => false
  end.

(** [s.replace(a, b)] for single characters. *)
Fixpoint replace_char (a b : ascii) (s : string) : string :=
  match s with
  | EmptyString => EmptyString
  | String c s' => String (if Ascii.eqb c a then b else c) (replace_char a b s')
  end.

(** ** What the program takes from its surroundings *)

(** A [ZoneInfo] object: the offset, in seconds, in force at a wall-clock
    time of the zone, and the wall-clock time of the zone at a UTC time. *)
Record zone := Zone {
  zone_utcoffset : PyTime.naive -> Z;
  zone_fromutc : PyTime.naive -> PyTime.naive }.

(** The two formats [cmd_add] hands to [strptime]. *)
Inductive strptime_format :=
| FmtMinutes   (* '%Y-%m-%d %H:%M' *)
| FmtSeconds.  (* '%Y-%m-%d %H:%M:%S' *)

(** The keyword arguments of [client.create_tweet]. *)
Record tweet := Tweet {
  tweet_text : jval;
  in_reply_to_tweet_id : option jval;
  quote_tweet_id : option jval }.

(** The system clock, the time-zone database, the library parsers, the
    process environment and the X client. [None] from a parser is its
    [ValueError]; [create_tweet] raises (left, with [str(e)]) or returns
    [response.data] (right). *)
Record Platform := {
  world : Type;
  clock : world -> PyTime.naive * world;
  localtime : PyTime.naive -> PyTime.naive;
  ZoneInfo : string -> option zone;
  strptime : string -> strptime_format -> option PyTime.naive;
  fromisoformat : string -> option PyTime.datetime;
  tweepy_installed : bool;
  getenv : string -> option string;
  create_tweet : tweet -> world -> (string + dict) * world }.

(** ** The commands *)
Section Scheduler.

Variable P : Platform.

(** The project tree and the surroundings a command runs in: the files of
    [scheduled-posts/] and of [scheduled-posts/done/] ([None] while the
    directory does not exist), what was printed, and, for every call of
    [post_to_x] so far, the file it was made for and its argument. *)
Record state := State {
  pending : option directory;
  done : option directory;
  env : world P;
  out : list (stream * message);
  calls : list (string * dict) }.

(** How a command ends: it returns, or an error leaves it; the effects made
    up to then stay. *)
Inductive outcome (A : Type) :=
| Returned (a : A) (st : state)
| Raised (e : exn) (st : state).
Arguments Returned {A} a st.
Arguments Raised {A} e st.

Definition print (s : stream) (m : message) (st : state) : state :=
  State (pending st) (done st) (env st) (out st ++ [(s, m)]) (calls st).

Definition set_env (w : world P) (st : state) : state :=
  State (pending st) (done st) w (out st) (calls st).

Definition set_pending (d : option directory) (st : state) : state :=
  State d (done st) (env st) (out st) (calls st).

Definition set_done (d : option directory) (st : state) : state :=
  State (pending st) d (env st) (out st) (calls st).

Definition log_call (name : string) (data : dict) (st : state) : state :=
  State (pending st) (done st) (env st) (out st) (calls st ++ [(name, data)]).

(** [dir.mkdir(parents=True, exist_ok=True)] *)
Definition mkdir (d : option directory) : option directory :=
  Some (default ∅ d).

(** [generate_post_id(scheduled_at)]; [local_now] is [datetime.now()]. *)
Definition generate_post_id (scheduled_at local_now : PyTime.naive) : string :=
  let ts := PyTime.strftime_compact scheduled_at in
  let hash_part :=
    substring 0 6 (Md5.hexdigest (ts +:+ PyTime.isoformat_naive local_now)) in
  ts +:+ "_" +:+ hash_part.

(** *** add *)

Record add_args := AddArgs {
  arg_text : string;
  arg_datetime : string;
  arg_timezone : string;
  arg_label : option string;
  arg_reply_to : option string;
  arg_quote : option string }.

Definition opt_str (o : option string) : jval :=
  match o with Some s => JStr s | None => JNull end.

(** [args.label or ""] *)
Definition label_or_empty (o : option string) : string := default "" o.

Definition cmd_add (args : add_args) (st : state) : outcome dict :=
  let st := set_pending (mkdir (pending st)) st in
  match ZoneInfo P (arg_timezone args) with
  | None => Raised (ZoneInfoNotFoundError (arg_timezone args)) st
  | Some tz =>
      let dt_str := replace_char "T" " " (arg_datetime args) in
      let parsed :=
        match strptime P dt_str FmtMinutes with
        | Some d => Some d
        | None => strptime P dt_str FmtSeconds
        end in
      match parsed with
      | None =>
          Raised (SystemExit 1)
            (print Stderr DatetimeFormatHint
               (print Stderr (BadDatetime (arg_datetime args)) st))
      | Some naive =>
          let scheduled_at :=
            PyTime.DateTime naive (Some (zone_utcoffset tz naive)) in
          let '(t, w) := clock P (env st) in
          let now_wall := zone_fromutc tz t in
          let now := PyTime.DateTime now_wall (Some (zone_utcoffset tz now_wall)) in
          let st := set_env w st in
          let st :=
            if PyTime.wall_le naive now_wall
            then print Stderr PastNote
                   (print Stderr (PastWarning (PyTime.isoformat scheduled_at)) st)
            else st in
          let '(t', w') := clock P (env st) in
          let st := set_env w' st in
          let post_id := generate_post_id naive (localtime P t') in
          let post_data :=
            [ ("id", JStr post_id);
              ("text", JStr (arg_text args));
              ("scheduled_at", JStr (PyTime.isoformat scheduled_at));
              ("created_at", JStr (PyTime.isoformat now));
              ("status", JStr "pending");
              ("label", JStr (label_or_empty (arg_label args)));
              ("reply_to", opt_str (arg_reply_to args));
              ("quote_tweet_id", opt_str (arg_quote args)) ] in
          let st :=
            set_pending
              (Some (<[post_id +:+ ".json" := JsonObject post_data]>
                       (default ∅ (pending st)))) st in
          Returned post_data (print Stdout (Added post_data) st)
      end
  end.

(** *** list *)

(** Lines 119-124: the posts of the directory whose status is pending. *)
Fixpoint load_pending (dir : directory) (names : list string)
  : result (list dict) :=
  match names with
  | [] => inr []
  | f :: rest =>
      match dir !! f with
      | None => inl FileNotFoundError
      | Some NotJson => inl JSONDecodeError
      | Some JsonOther => inl AttributeError
      | Some (JsonObject data) =>
          match load_pending dir rest with
          | inl e => inl e
          | inr posts => inr (if is_pending data then data :: posts else posts)
          end
      end
  end.

(** [lambda x: x['scheduled_at']] *)
Definition scheduled_at_key (x : dict) : result jval :=
  match dict_get "scheduled_at" x with
  | Some v => inr v
  | None => inl (KeyError "scheduled_at")
  end.

(** Lines 134-140, for one post: what the body reads before it prints. *)
Definition list_entry (p : dict) : result message :=
  match dict_get "scheduled_at" p with
  | None => inl (KeyError "scheduled_at")
  | Some (JStr s) =>
      match fromisoformat P s with
      | None => inl ValueError
      | Some _ =>
          match dict_get "id" p with
          | None => inl (KeyError "id")
          | Some _ =>
              match dict_get "text" p with
              | None => inl (KeyError "text")
              | Some (JStr _) => inr (ListEntry p)
              | Some _ => inl TypeError
              end
          end
      end
  | Some _ => inl TypeError
  end.

Fixpoint print_entries (entry : dict -> result message) (posts : list dict)
    (st : state) : outcome unit :=
  match posts with
  | [] => Returned tt st
  | p :: rest =>
      match entry p with
      | inl e => Raised e st
      | inr m => print_entries entry rest (print Stdout m st)
      end
  end.

Definition cmd_list (st : state) : outcome unit :=
  match pending st with
  | None => Returned tt (print Stdout NoPending st)
  | Some dir =>
      match load_pending dir (glob_json dir) with
      | inl e => Raised e st
      | inr [] => Returned tt (print Stdout NoPending st)
      | inr posts =>
          match sort_posts scheduled_at_key posts with
          | inl e => Raised e st
          | inr sorted =>
              print_entries list_entry sorted
                (print Stdout (ListHeader (List.length sorted)) st)
          end
      end
  end.

(** *** cancel *)

Definition cmd_cancel (post_id : string) (st : state) : outcome unit :=
  let name := post_id +:+ ".json" in
  match pending st ≫= (.!! name) with
  | None => Raised (SystemExit 1) (print Stderr (CancelNotFound post_id) st)
  | Some _ =>
      Returned tt
        (print Stdout (Cancelled post_id)
           (set_pending (delete name <$> pending st) st))
  end.

(** *** history *)

(** Lines 169-172: [json.load] of every file; a document that is no object
    is appended like any other. *)
Fixpoint load_all (dir : directory) (names : list string) : result (list file) :=
  match names with
  | [] => inr []
  | f :: rest =>
      match dir !! f with
      | None => inl FileNotFoundError
      | Some NotJson => inl JSONDecodeError
      | Some x =>
          match load_all dir rest with
          | inl e => inl e
          | inr posts => inr (x :: posts)
          end
      end
  end.

(** [lambda x: x.get('posted_at', x['scheduled_at'])]: the default is
    evaluated whether or not it is used. *)
Definition posted_at_key (x : file) : result jval :=
  match x with
  | JsonObject d =>
      match dict_get "scheduled_at" d with
      | None => inl (KeyError "scheduled_at")
      | Some s => inr (default s (dict_get "posted_at" d))
      end
  | _ => inl AttributeError
  end.

(** Lines 182-190, for one post. *)
Definition history_entry (x : file) : result message :=
  match x with
  | JsonObject p =>
      match dict_get "id" p with
      | None => inl (KeyError "id")
      | Some _ =>
          match dict_get "text" p with
          | None => inl (KeyError "text")
          | Some (JStr _) => inr (HistoryEntry p)
          | Some _ => inl TypeError
          end
      end
  | _ => inl AttributeError
  end.

Fixpoint print_history (posts : list file) (st : state) : outcome unit :=
  match posts with
  | [] => Returned tt st
  | p :: rest =>
      match history_entry p with
      | inl e => Raised e st
      | inr m => print_history rest (print Stdout m st)
      end
  end.

Definition cmd_history (st : state) : outcome unit :=
  match done st with
  | None => Returned tt (print Stdout NoHistory st)
  | Some dir =>
      match load_all dir (glob_json dir) with
      | inl e => Raised e st
      | inr [] => Returned tt (print Stdout NoHistory st)
      | inr posts =>
          match sort_posts_reverse posted_at_key posts with
          | inl e => Raised e st
          | inr sorted =>
              print_history sorted
                (print Stdout (HistoryHeader (List.length sorted)) st)
          end
      end
  end.

(** *** post-due *)

Definition credential_names : list string :=
  ["X_API_KEY"; "X_API_KEY_SECRET"; "X_ACCESS_TOKEN"; "X_ACCESS_TOKEN_SECRET"].

(** [all([api_key, api_key_secret, access_token, access_token_secret])] *)
Definition has_credentials : bool :=
  forallb (fun k => match getenv P k with
                    | Some v => negb (String.eqb v "")
                    | None => false
                    end) credential_names.

(** [data[k]] when [data.get(k)] is true. *)
Definition optional_field (k : string) (data : dict) : option jval :=
  match dict_get k data with
  | Some v => if truthy v then Some v else None
  | None => None
  end.

(** [kwargs] of lines 274-278. *)
Definition kwargs (text : jval) (data : dict) : tweet :=
  Tweet text (optional_field "reply_to" data) (optional_field "quote_tweet_id" data).

Definition tweepy_missing : string :=
  "tweepy がインストールされていません: pip install tweepy".

Definition credentials_missing : string :=
  "X API認証情報が設定されていません。" +:+
  "GitHub Secrets に X_API_KEY, X_API_KEY_SECRET, " +:+
  "X_ACCESS_TOKEN, X_ACCESS_TOKEN_SECRET を設定してください。".

(** Lines 282-287: the value [post_to_x] returns for the client's answer,
    or the error that leaves it. *)
Definition response_result (r : string + dict) : publish_error + dict :=
  match r with
  | inl msg => inl (PClientError msg)
  | inr response =>
      match dict_get "id" response, dict_get "text" response with
      | None, _ => inl (PKeyError "id")
      | Some _, None => inl (PKeyError "text")
      | Some id, Some t =>
          inr [ ("success", JBool true);
                ("tweet_id", id);
                ("text", t);
                ("url", JStr ("https://x.com/i/status/" +:+ py_str id)) ]
      end
  end.

Definition post_to_x (data : dict) (w : world P)
  : (publish_error + dict) * world P :=
  if negb (tweepy_installed P) then (inl (PRuntimeError tweepy_missing), w)
  else if negb has_credentials then (inl (PValueError credentials_missing), w)
  else
    match dict_get "text" data with
    | None => (inl (PKeyError "text"), w)
    | Some text =>
        let '(r, w') := create_tweet P (kwargs text data) w in
        (response_result r, w')
    end.

(** The record as the [try] branch leaves it. *)
Definition mark_posted (posted_at : string) (result : dict) (data : dict) : dict :=
  dict_set "tweet_url" (default (JStr "") (dict_get "url" result))
    (dict_set "tweet_id" (default JNull (dict_get "tweet_id" result))
       (dict_set "posted_at" (JStr posted_at)
          (dict_set "status" (JStr "posted") data))).

(** The record as the [except] branch leaves it. *)
Definition mark_failed (posted_at : string) (e : publish_error) (data : dict) : dict :=
  dict_set "posted_at" (JStr posted_at)
    (dict_set "error" (JStr (str_error e))
       (dict_set "status" (JStr "failed") data)).

(** Lines 238-242: the record goes to [done/] under the same file name and
    the pending file is unlinked. *)
Definition move_to_done (name : string) (data : dict) (st : state) : state :=
  set_pending (delete name <$> pending st)
    (set_done (Some (<[name := JsonObject data]> (default ∅ (done st)))) st).

(** Lines 223-243: publish one due post and archive the outcome. *)
Definition publish (name : string) (data : dict) (id : jval) (st : state) : state :=
  let st := print Stdout (Posting id) st in
  let '(r, w) := post_to_x data (env st) in
  let st := set_env w (log_call name data st) in
  let '(t, w') := clock P (env st) in
  let st := set_env w' st in
  let posted_at := PyTime.isoformat (PyTime.utc t) in
  match r with
  | inr result =>
      move_to_done name (mark_posted posted_at result data)
        (print Stdout (PostSucceeded (default (JStr "") (dict_get "url" result))) st)
  | inl e =>
      move_to_done name (mark_failed posted_at e data)
        (print Stderr (PostFailed e) st)
  end.

(** One turn of the loop of [cmd_post_due]; [true] when the post was
    counted. *)
Definition process_file (now : PyTime.datetime) (name : string) (st : state)
  : outcome bool :=
  match pending st ≫= (.!! name) with
  | None => Raised FileNotFoundError st
  | Some NotJson => Raised JSONDecodeError st
  | Some JsonOther => Raised AttributeError st
  | Some (JsonObject data) =>
      if negb (is_pending data) then Returned false st
      else
        match dict_get "scheduled_at" data with
        | None => Raised (KeyError "scheduled_at") st
        | Some (JStr s) =>
            match fromisoformat P s with
            | None => Raised ValueError st
            | Some scheduled_at =>
                if PyTime.gt (PyTime.assume_utc scheduled_at) now
                then Returned false st
                else
                  match dict_get "id" data with
                  | None => Raised (KeyError "id") st
                  | Some id => Returned true (publish name data id st)
                  end
            end
        | Some _ => Raised TypeError st
        end
  end.

Fixpoint post_due_loop (now : PyTime.datetime) (names : list string)
    (posted_count : nat) (st : state) : outcome nat :=
  match names with
  | [] => Returned posted_count st
  | f :: rest =>
      match process_file now f st with
      | Raised e st' => Raised e st'
      | Returned counted st' =>
          post_due_loop now rest
            (if counted then S posted_count else posted_count) st'
      end
  end.

Definition cmd_post_due (st : state) : outcome unit :=
  match pending st with
  | None => Returned tt (print Stdout NoScheduledDir st)
  | Some dir =>
      let st := set_done (mkdir (done st)) st in
      let '(t, w) := clock P (env st) in
      let st := set_env w st in
      match post_due_loop (PyTime.utc t) (glob_json dir) 0 st with
      | Raised e st' => Raised e st'
      | Returned posted_count st' =>
          Returned tt (print Stdout (Completed posted_count) st')
      end
  end.

End Scheduler.

Arguments State {P} pending done env out calls.
Arguments pending {P} s.
Arguments done {P} s.
Arguments env {P} s.
Arguments out {P} s.
Arguments calls {P} s.
Arguments Returned {P A} a st.
Arguments Raised {P A} e st.
Arguments print {P} s m st.
Arguments set_env {P} w st.
Arguments set_pending {P} d st.
Arguments set_done {P} d st.
Arguments log_call {P} name data st.
Arguments cmd_add {P} args st.
Arguments cmd_list {P} st.
Arguments cmd_cancel {P} post_id st.
Arguments cmd_history {P} st.
Arguments cmd_post_due {P} st.
Arguments print_entries {P} entry posts st.
Arguments print_history {P} posts st.
Arguments move_to_done {P} name data st.
Arguments publish {P} name data id st.
Arguments process_file {P} now name st.
Arguments post_due_loop {P} now names posted_count st.

(** ** A platform to run the commands on

    A scripted clock, two zones of the time-zone database, reference
    parsers for the zero-padded forms [isoformat] writes and the usage text
    shows, and a client that rejects the text [boom] and accepts any other
    with tweet id 1. *)
Module Demo.

Definition next_day (d : PyTime.naive) : PyTime.naive :=
  let '(PyTime.Naive y m dd h mi s us) := d in
  if dd <? PyTime.days_in_month y m then PyTime.Naive y m (dd + 1) h mi s us
  else if m <? 12 then PyTime.Naive y (m + 1) 1 h mi s us
  else PyTime.Naive (y + 1) 1 1 h mi s us.

(** Nine hours ahead of UTC the year round. *)
Definition tokyo : zone :=
  Zone (fun _ => 32400)
       (fun t =>
          let '(PyTime.Naive y m d h mi s us) := t in
          if h + 9 <? 24 then PyTime.Naive y m d (h + 9) mi s us
          else next_day (PyTime.Naive y m d (h + 9 - 24) mi s us)).

Definition utc_zone : zone := Zone (fun _ => 0) (fun t => t).

Definition zoneinfo (key : string) : option zone :=
  if String.eqb key "Asia/Tokyo" then Some tokyo
  else if String.eqb key "UTC" then Some utc_zone
  else None.

Definition digit_value (c : ascii) : option Z :=
  let n := Z.of_N (N_of_ascii c) in
  if (48 <=? n) && (n <=? 57) then Some (n - 48) else None.

(** Exactly [n] decimal digits at the head of [s]. *)
Fixpoint digits (n : nat) (acc : Z) (s : string) : option (Z * string) :=
  match n with
  | O => Some (acc, s)
  | S n' =>
      match s with
      | String c s' =>
          match digit_value c with
          | Some v => digits n' (10 * acc + v) s'
          | None => None
          end
      | EmptyString => None
      end
  end.

Definition expect (c : ascii) (s : string) : option string :=
  match s with
  | String c' s' => if Ascii.eqb c c' then Some s' else None
  | EmptyString => None
  end.

Definition valid (d : PyTime.naive) : bool :=
  (1 <=? PyTime.year d) && (PyTime.year d <=? 9999) &&
  (1 <=? PyTime.month d) && (PyTime.month d <=? 12) &&
  (1 <=? PyTime.day d) && (PyTime.day d <=? PyTime.days_in_month (PyTime.year d) (PyTime.month d)) &&
  (PyTime.hour d <? 24) && (PyTime.minute d <? 60) && (PyTime.second d <? 60).

(** [YYYY-MM-DD], a separator, [HH:MM] and what follows it. *)
Definition date_and_minutes (sep : ascii) (s : string)
  : option (Z * Z * Z * Z * Z * string) :=
  '(y, s) ← digits 4 0 s; s ← expect "-" s;
  '(m, s) ← digits 2 0 s; s ← expect "-" s;
  '(d, s) ← digits 2 0 s; s ← expect sep s;
  '(h, s) ← digits 2 0 s; s ← expect ":" s;
  '(mi, s) ← digits 2 0 s;
  Some (y, m, d, h, mi, s).

Definition checked (d : PyTime.naive) : option PyTime.naive :=
  if valid d then Some d else None.

Definition strptime (s : string) (fmt : strptime_format) : option PyTime.naive :=
  '(y, m, d, h, mi, rest) ← date_and_minutes " " s;
  match fmt with
  | FmtMinutes =>
      if String.eqb rest "" then checked (PyTime.Naive y m d h mi 0 0) else None
  | FmtSeconds =>
      rest ← expect ":" rest;
      '(sec, rest) ← digits 2 0 rest;
      if String.eqb rest "" then checked (PyTime.Naive y m d h mi sec 0) else None
  end.

(** [+HH:MM] or [-HH:MM] *)
Definition offset (s : string) : option Z :=
  match s with
  | String sign s =>
      '(h, s) ← digits 2 0 s; s ← expect ":" s;
      '(mi, s) ← digits 2 0 s;
      if negb (String.eqb s "") || negb (mi <? 60) || negb (h <? 24) then None
      else if Ascii.eqb sign "+" then Some (h * 3600 + mi * 60)
      else if Ascii.eqb sign "-" then Some (- (h * 3600 + mi * 60))
      else None
  | EmptyString => None
  end.

Definition fromisoformat (s : string) : option PyTime.datetime :=
  '(y, m, d, h, mi, rest) ← date_and_minutes "T" s;
  rest ← expect ":" rest;
  '(sec, rest) ← digits 2 0 rest;
  wall ← checked (PyTime.Naive y m d h mi sec 0);
  if String.eqb rest "" then Some (PyTime.DateTime wall None)
  else off ← offset rest; Some (PyTime.DateTime wall (Some off)).

(** The clock reads the head of the script and moves on. *)
Definition clock (w : list PyTime.naive) : PyTime.naive * list PyTime.naive :=
  match w with
  | t :: w' => (t, w')
  | [] => (PyTime.Naive 2026 1 1 0 0 0 0, [])
  end.

Definition create_tweet (tw : tweet) (w : list PyTime.naive)
  : (string + dict) * list PyTime.naive :=
  match tweet_text tw with
  | JStr "boom" => (inl "403 Forbidden", w)
  | text => (inr [("id", JStr "1"); ("text", text)], w)
  end.

Definition platform : Platform :=
  Build_Platform (list PyTime.naive) clock (zone_fromutc tokyo) zoneinfo
    strptime fromisoformat true (fun _ => Some "secret") create_tweet.

Definition at_time (y m d h mi s : Z) : PyTime.naive := PyTime.Naive y m d h mi s 0.

Definition start (pending done : option directory) (clock : list PyTime.naive)
  : state platform :=
  @State platform pending done clock [] [].

End Demo.


(** Records and directories to run the commands on. *)
Module Sample.

Definition post (id text scheduled_at status : string) : dict :=
  [ ("id", JStr id);
    ("text", JStr text);
    ("scheduled_at", JStr scheduled_at);
    ("created_at", JStr "2026-02-20T10:00:00+09:00");
    ("status", JStr status);
    ("label", JStr "");
    ("reply_to", JNull);
    ("quote_tweet_id", JNull) ].

Definition hello : dict :=
  post "20260225_090000_f743f7" "Hello" "2026-02-25T09:00:00+09:00" "pending".

Definition later : dict :=
  post "20260301_120000_0a1b2c" "Later" "2026-03-01T12:00:00+09:00" "pending".

Definition boom : dict :=
  post "20260225_083000_c0ffee" "boom" "2026-02-25T08:30:00+09:00" "pending".

(** Added with [--timezone Asia/Tokyo] and with [--timezone UTC]. *)
Definition tokyo_morning : dict :=
  post "20260225_090000_aaaaaa" "Tokyo" "2026-02-25T09:00:00+09:00" "pending".

Definition utc_morning : dict :=
  post "20260225_080000_bbbbbb" "UTC" "2026-02-25T08:00:00+00:00" "pending".

Definition archived : dict :=
  post "20260101_090000_123abc" "Old" "2026-01-01T09:00:00+09:00" "posted".

Definition file_of (p : dict) : string :=
  match dict_get "id" p with Some (JStr id) => id +:+ ".json" | _ => ".json" end.

Definition directory_of (posts : list dict) : directory :=
  fold_right (fun p d => <[file_of p := JsonObject p]> d) ∅ posts.

(** The clock of the examples: readings one second apart from 00:00:01 UTC
    on 25 February 2026. *)
Definition clock : list PyTime.naive :=
  [ Demo.at_time 2026 2 25 0 0 1; Demo.at_time 2026 2 25 0 0 2;
    Demo.at_time 2026 2 25 0 0 3; Demo.at_time 2026 2 25 0 0 4;
    Demo.at_time 2026 2 25 0 0 5; Demo.at_time 2026 2 25 0 0 6 ].

(** Two pending posts, one due at the first clock reading, one not. *)
Definition two_posts : state Demo.platform :=
  Demo.start (Some (directory_of [hello; later])) None clock.

(** A due post the client rejects. *)
Definition rejected : state Demo.platform :=
  Demo.start (Some (directory_of [boom])) (Some ∅) clock.

(** Two pending posts added under different time zones. *)
Definition two_zones : state Demo.platform :=
  Demo.start (Some (directory_of [tokyo_morning; utc_morning])) None clock.

(** A pending post and an archived one. *)
Definition in_use : state Demo.platform :=
  Demo.start (Some (directory_of [later])) (Some (directory_of [archived])) clock.

(** A pending directory with a file [notes.json] that holds [{}]. *)
Definition with_stray_object : state Demo.platform :=
  Demo.start (Some (<["notes.json" := JsonObject []]> ∅)) None clock.

(** A record that was posted, left in the pending directory by hand. *)
Definition misfiled : state Demo.platform :=
  Demo.start (Some (directory_of [archived])) None clock.

(** A pending directory with a file [junk.json] that is no JSON. *)
Definition with_garbage : state Demo.platform :=
  Demo.start (Some (<["junk.json" := NotJson]> (directory_of [hello]))) None clock.

Definition empty : state Demo.platform := Demo.start None None clock.

Definition hello_args : add_args :=
  AddArgs "Hello" "2026-02-25 09:00" "Asia/Tokyo" None None None.

Definition empty_text_args : add_args :=
  AddArgs "" "2026-02-25 09:00" "Asia/Tokyo" None None None.

Definition bad_datetime_args : add_args :=
  AddArgs "Hello" "tomorrow morning" "Asia/Tokyo" None None None.

End Sample.

(** ** Notions the properties are stated with *)

Definition is_digit (c : ascii) : bool :=
  let n := Z.of_N (N_of_ascii c) in (48 <=? n) && (n <=? 57).

Definition is_hex (c : ascii) : bool :=
  let n := Z.of_N (N_of_ascii c) in is_digit c || ((97 <=? n) && (n <=? 102)).

Definition all_chars (p : ascii -> bool) (s : string) : bool :=
  forallb p (list_ascii_of_string s).

(** Eight digits, an underscore, six digits: [YYYYMMDD_HHMMSS]. *)
Definition compact_form (s : string) : bool :=
  (String.length s =? 15)%nat && all_chars is_digit (substring 0 8 s) &&
  String.eqb (substring 8 1 s) "_" && all_chars is_digit (substring 9 6 s).

(** A status that ends the life of a post. *)
Definition terminal (d : dict) : bool :=
  match dict_get "status" d with
  | Some (JStr s) => String.eqb s "posted" || String.eqb s "failed"
  | _ => false
  end.

(** The keys both listings read from a record. *)
Definition has_listing_keys (d : dict) : bool :=
  match dict_get "scheduled_at" d, dict_get "id" d, dict_get "text" d with
  | Some (JStr _), Some _, Some (JStr _) => true
  | _, _, _ => false
  end.

(** A file that holds a post record with the keys the listings read. *)
Definition post_record (x : file) : bool :=
  match x with
  | JsonObject d => has_listing_keys d
  | _ => false
  end.

(** A file [history] can show: an object with a [scheduled_at], an [id]
    and a text. *)
Definition history_readable (x : file) : bool :=
  match x with
  | JsonObject d =>
      match dict_get "scheduled_at" d, dict_get "id" d, dict_get "text" d with
      | Some _, Some _, Some (JStr _) => true
      | _, _, _ => false
      end
  | _ => false
  end.

(** The key of the left element is not above that of the right one. *)
Definition not_above {A : Type} (x y : jval * A) : Prop :=
  py_lt (fst y) (fst x) = Some false.

(** The key is a string. *)
Definition text_key {A : Type} (x : jval * A) : Prop := exists s, fst x = JStr s.

(** The posts a run of [list] printed, in the order of printing. *)
Definition listed (ms : list (stream * message)) : list dict :=
  flat_map (fun m => match m with (Stdout, ListEntry p) => [p] | _ => [] end) ms.

(** The stored text of [scheduled_at] of [p] is at most that of [q], in
    code-point order. *)
Definition scheduled_text_le (p q : dict) : Prop :=
  exists s t, dict_get "scheduled_at" p = Some (JStr s) /\
              dict_get "scheduled_at" q = Some (JStr t) /\
              String.leb s t = true.

Section Notions.

Context {P : Platform}.

Definition pending_file (st : state P) (name : string) : option file :=
  pending st ≫= (.!! name).

Definition done_file (st : state P) (name : string) : option file :=
  done st ≫= (.!! name).

(** The state a command ends in, however it ends. *)
Definition final {A : Type} (o : outcome P A) : state P :=
  match o with
  | Returned _ st => st
  | Raised _ st => st
  end.

Definition raises {A : Type} (o : outcome P A) : Prop :=
  exists e st, o = Raised e st.

(** The value a command returns, when it returns. *)
Definition returned {A : Type} (o : outcome P A) : option A :=
  match o with
  | Returned a _ => Some a
  | Raised _ _ => None
  end.

(** Lines 65-71: the date and time [add] was given, read in the first of
    the two formats that fits. *)
Definition parse_scheduled (given : string) : option PyTime.naive :=
  let dt_str := replace_char "T" " " given in
  match strptime P dt_str FmtMinutes with
  | Some d => Some d
  | None => strptime P dt_str FmtSeconds
  end.

(** The instant [scheduled_at] of a record denotes, read as [post-due]
    reads it: parsed, and taken as UTC when it carries no offset. *)
Definition scheduled_instant (data : dict) : option Z :=
  match dict_get "scheduled_at" data with
  | Some (JStr s) =>
      d ← fromisoformat P s; Some (PyTime.instant (PyTime.assume_utc d))
  | _ => None
  end.

(** The posts of a directory whose status is pending, by file name. *)
Definition pending_posts (dir : directory) : list dict :=
  flat_map (fun f => match dir !! f with
                     | Some (JsonObject d) => if is_pending d then [d] else []
                     | _ => []
                     end) (glob_json dir).

(** The instants of [scheduled_at] never decrease along [posts]. *)
Definition chronological (posts : list dict) : Prop :=
  Sorted (fun p q => exists a b, scheduled_instant p = Some a /\
                                 scheduled_instant q = Some b /\ a <= b) posts.

(** A file [post-due] can work on: an object, and when its status is
    pending one with an [id] and a [scheduled_at] that parses. *)
Definition runnable (x : file) : bool :=
  match x with
  | JsonObject data =>
      negb (is_pending data) ||
      (match scheduled_instant data with Some _ => true | None => false end &&
       match dict_get "id" data with Some _ => true | None => false end)
  | _ => false
  end.

(** A file [list] can show or pass over: an object, and when its status is
    pending one whose [scheduled_at] parses, with an [id] and a text. *)
Definition listable (x : file) : bool :=
  match x with
  | JsonObject data =>
      negb (is_pending data) ||
      (has_listing_keys data &&
       match scheduled_instant data with Some _ => true | None => false end)
  | _ => false
  end.

(** Every [*.json] file of the directory passes the check. *)
Definition every_file (check : file -> bool) (dir : directory) : bool :=
  forallb (fun f => match dir !! f with Some x => check x | None => false end)
          (glob_json dir).

(** No pending post of the directory is scheduled after [now1] and at or
    before [now2]: none comes due between the two. *)
Definition none_due_between (now1 now2 : PyTime.datetime) (dir : directory) : bool :=
  every_file (fun x =>
    match x with
    | JsonObject data =>
        negb (is_pending data) ||
        match scheduled_instant data with
        | Some t => negb ((PyTime.instant now1 <? t) && (t <=? PyTime.instant now2))
        | None => true
        end
    | _ => true
    end) dir.

(** What one turn of the loop of [post-due] decides for a file. *)
Inductive verdict :=
| Skip
| Publish (data : dict) (id : jval)
| Fail (e : exn).

Definition examine (now : PyTime.datetime) (x : option file) : verdict :=
  match x with
  | None => Fail FileNotFoundError
  | Some NotJson => Fail JSONDecodeError
  | Some JsonOther => Fail AttributeError
  | Some (JsonObject data) =>
      if negb (is_pending data) then Skip
      else
        match dict_get "scheduled_at" data with
        | None => Fail (KeyError "scheduled_at")
        | Some (JStr s) =>
            match fromisoformat P s with
            | None => Fail ValueError
            | Some d =>
                if PyTime.gt (PyTime.assume_utc d) now then Skip
                else
                  match dict_get "id" data with
                  | None => Fail (KeyError "id")
                  | Some id => Publish data id
                  end
            end
        | Some _ => Fail TypeError
        end
  end.

(** The record [publish] archives for a file: the outcome of [post_to_x]
    and the clock reading that follows it, written into the record. *)
Definition archived_by (data : dict) (st : state P) : dict :=
  let '(r, w) := post_to_x P data (env st) in
  let posted_at := PyTime.isoformat (PyTime.utc (fst (clock P w))) in
  match r with
  | inr result => mark_posted posted_at result data
  | inl e => mark_failed posted_at e data
  end.

(** Whether [post-due] publishes the file. *)
Definition is_due (now : PyTime.datetime) (x : option file) : bool :=
  match examine now x with Publish _ _ => true | _ => false end.

Definition due_names (now : PyTime.datetime) (st : state P) (names : list string)
  : list string :=
  List.filter (fun f => is_due now (pending_file st f)) names.

(** Every post record sits where its status says, and in one place only:
    the [*.json] files of the pending directory hold records whose status
    is pending, those of the archive records with a terminal status, and no
    file name is in both. *)
Definition one_location (st : state P) : Prop :=
  (forall f x, json_name f = true -> pending_file st f = Some x ->
               exists d, x = JsonObject d /\ is_pending d = true) /\
  (forall f x, json_name f = true -> done_file st f = Some x ->
               exists d, x = JsonObject d /\ terminal d = true) /\
  (forall f, json_name f = true ->
             is_Some (pending_file st f) -> is_Some (done_file st f) -> False).

(** The archive holds a record with a terminal status under the name. *)
Definition archived_terminal (st : state P) (f : string) : Prop :=
  exists d, done_file st f = Some (JsonObject d) /\ terminal d = true.

(** From [st] to [st'] every pending file stayed as it was or left the
    pending directory for the archive, with a terminal status; what was
    archived stays archived. *)
Definition moves_to_archive (st st' : state P) : Prop :=
  forall f,
    (pending_file st' f = pending_file st f \/
     (pending_file st' f = None /\ archived_terminal st' f)) /\
    (archived_terminal st f -> archived_terminal st' f).

End Notions.

Arguments scheduled_instant : clear implicits.
Arguments parse_scheduled : clear implicits.
Arguments chronological : clear implicits.
Arguments runnable : clear implicits.
Arguments listable : clear implicits.
Arguments none_due_between : clear implicits.
Arguments examine : clear implicits.
Arguments is_due : clear implicits.

(** An id that is one path component: it holds no separator. *)
Definition is_component (post_id : string) : bool :=
  all_chars (fun c => negb (Ascii.eqb c "/")) post_id.

(** ** Notions for the rest of the program *)

(** The records a run of [history] printed, in the order of printing. *)
Definition history_listed (ms : list (stream * message)) : list dict :=
  flat_map (fun m => match m with (Stdout, HistoryEntry p) => [p] | _ => [] end) ms.

(** The objects the [*.json] files of a directory hold, by file name. *)
Definition records (dir : directory) : list dict :=
  flat_map (fun f => match dir !! f with
                     | Some (JsonObject d) => [d]
                     | _ => []
                     end) (glob_json dir).

(** The sort key of [p] in [history] is not below that of [q]. *)
Definition history_ge (p q : dict) : Prop :=
  exists a b, posted_at_key (JsonObject p) = inr a /\
              posted_at_key (JsonObject q) = inr b /\
              py_lt a b = Some false.

(** A file [history] can show and sort: a record it can read whose sort
    key, [posted_at] or else [scheduled_at], is a string. *)
Definition history_showable (x : file) : bool :=
  history_readable x &&
  match posted_at_key x with
  | inr (JStr _) => true
  | _ => false
  end.

(** The keys the [try] branch of [post-due] writes. *)
Definition outcome_keys : list string :=
  ["status"; "posted_at"; "tweet_id"; "tweet_url"].

(** The line [post-due] prints after a call of [post_to_x]. *)
Definition result_line (r : publish_error + dict) : stream * message :=
  match r with
  | inr result => (Stdout, PostSucceeded (default (JStr "") (dict_get "url" result)))
  | inl e => (Stderr, PostFailed e)
  end.

(** An environment variable that is unset or empty. *)
Definition unset (P : Platform) (k : string) : bool :=
  match getenv P k with
  | Some v => String.eqb v ""
  | None => true
  end.

(** The two lines [add] writes to the error stream for a time that is not
    in the future. *)
Definition past_warning (scheduled_at : PyTime.datetime) : list (stream * message) :=
  [ (Stderr, PastWarning (PyTime.isoformat scheduled_at)); (Stderr, PastNote) ].

(** The first character is a decimal digit. *)
Definition starts_with_digit (s : string) : bool :=
  match s with
  | String c _ => is_digit c
  | EmptyString => false
  end.

Section MoreNotions.

Context {P : Platform}.

(** The error a command ends with, when it does not return. *)
Definition raised {A : Type} (o : outcome P A) : option exn :=
  match o with
  | Returned _ _ => None
  | Raised e _ => Some e
  end.

(** The local time [generate_post_id] reads when [add] runs in the state:
    the second clock reading of the command. *)
Definition id_reading (st : state P) : PyTime.naive :=
  localtime P (fst (clock P (snd (clock P (env st))))).

End MoreNotions.

(** More records and directories to run the commands on. *)
Module Cases.

(** A pending record that is due at the first clock reading and has no
    [text]. *)
Definition textless : dict :=
  [ ("id", JStr "20260225_083000_0dd0dd");
    ("scheduled_at", JStr "2026-02-25T08:30:00+09:00");
    ("status", JStr "pending") ].

Definition with_textless : state Demo.platform :=
  Demo.start (Some (<["20260225_083000_0dd0dd.json" := JsonObject textless]> ∅))
    None Sample.clock.

(** The directory of [Sample.two_zones] after [setup] has put its script
    there, and with a metadata file of macOS. *)
Definition with_other_files : state Demo.platform :=
  Demo.start
    (Some (<["post_due.py" := NotJson]>
             (<["._20260225_090000_aaaaaa.json" := NotJson]>
                (Sample.directory_of [Sample.tokyo_morning; Sample.utc_morning]))))
    None Sample.clock.

(** A clock that has stopped: every reading is the same. *)
Definition stopped_clock : state Demo.platform := Demo.start None None [].

Definition other_text_args : add_args :=
  AddArgs "Another" "2026-02-25T09:00" "UTC" None None None.

(** What [post_to_x] returns for [Sample.hello]. *)
Definition hello_result : dict :=
  [ ("success", JBool true); ("tweet_id", JStr "1"); ("text", JStr "Hello");
    ("url", JStr "https://x.com/i/status/1") ].

End Cases.

(** * Properties *)

(** ** Sorting and globbing *)

Lemma insert_name_perm x l : Permutation (insert_name x l) (x :: l).
Proof.
  induction l as [|y l IH]; simpl; [reflexivity|].
  destruct (String.leb x y); [reflexivity|].
  rewrite IH. apply perm_swap.
Qed.

Lemma sort_names_perm l : Permutation (sort_names l) l.
Proof.
  induction l as [|x l IH]; simpl; [reflexivity|].
  rewrite insert_name_perm. now constructor.
Qed.

Lemma leb_of_not_leb x y : String.leb x y = false -> String.leb y x = true.
Proof.
  intros H. destruct (String.leb_total x y) as [H'|H']; congruence.
Qed.

Lemma insert_name_sorted x l :
  Sorted (fun a b => String.leb a b = true) l ->
  Sorted (fun a b => String.leb a b = true) (insert_name x l).
Proof.
  induction l as [|y l IH]; intros Hs; simpl.
  - repeat constructor.
  - destruct (String.leb x y) eqn:Hxy.
    + constructor; [assumption|]. now constructor.
    + inversion Hs as [|? ? Hl Hhd]; subst.
      constructor; [now apply IH|].
      destruct l as [|z l]; simpl.
      * constructor. now apply leb_of_not_leb.
      * destruct (String.leb x z); constructor.
        -- now apply leb_of_not_leb.
        -- now inversion Hhd.
Qed.

Lemma sort_names_sorted l :
  Sorted (fun a b => String.leb a b = true) (sort_names l).
Proof.
  induction l as [|x l IH]; simpl; [constructor|]. now apply insert_name_sorted.
Qed.

Lemma glob_json_elem (d : directory) f :
  f ∈ glob_json d <-> json_name f = true /\ is_Some (d !! f).
Proof.
  unfold glob_json. rewrite sort_names_perm.
  rewrite list_elem_of_In, filter_In, <- list_elem_of_In, list_elem_of_fmap.
  split.
  - intros [[[k x] [-> Hin]] Hj]. apply elem_of_map_to_list in Hin.
    simpl in *. split; [assumption|]. now exists x.
  - intros [Hj [x Hx]]. split; [|assumption].
    exists (f, x). split; [reflexivity|]. now apply elem_of_map_to_list.
Qed.

Lemma glob_json_NoDup (d : directory) : NoDup (glob_json d).
Proof.
  unfold glob_json. rewrite sort_names_perm.
  apply NoDup_ListNoDup, List.NoDup_filter, NoDup_ListNoDup.
  apply NoDup_fst_map_to_list.
Qed.

(** ** Records *)

Lemma dict_get_set_eq k v d : dict_get k (dict_set k v d) = Some v.
Proof.
  induction d as [|[k' v'] d IH]; simpl.
  - now rewrite String.eqb_refl.
  - destruct (String.eqb k k') eqn:E; simpl; rewrite ?String.eqb_refl, ?E; auto.
Qed.

Lemma dict_get_set_ne k k' v d :
  k <> k' -> dict_get k (dict_set k' v d) = dict_get k d.
Proof.
  intros Hne. induction d as [|[k'' v''] d IH]; simpl.
  - apply String.eqb_neq in Hne. now rewrite Hne.
  - destruct (String.eqb k' k'') eqn:E; simpl.
    + apply String.eqb_eq in E. subst k''.
      apply String.eqb_neq in Hne. now rewrite Hne.
    + destruct (String.eqb k k''); auto.
Qed.

(** ** One turn of the loop of post-due *)
Section PostDue.

Context {P : Platform}.

Implicit Types (st : state P) (now : PyTime.datetime) (f g : string).

Lemma process_file_examine now f st :
  process_file now f st =
  match examine P now (pending_file st f) with
  | Skip => Returned false st
  | Publish data id => Returned true (publish f data id st)
  | Fail e => Raised e st
  end.
Proof.
  unfold process_file, examine, pending_file.
  destruct (pending st ≫= (.!! f)) as [[| |data]|]; try reflexivity.
  destruct (negb (is_pending data)); [reflexivity|].
  destruct (dict_get "scheduled_at" data) as [[| | |s]|]; try reflexivity.
  destruct (fromisoformat P s) as [d|]; [|reflexivity].
  destruct (PyTime.gt (PyTime.assume_utc d) now); [reflexivity|].
  destruct (dict_get "id" data); reflexivity.
Qed.

Lemma terminal_mark_failed t e data : terminal (mark_failed t e data) = true.
Proof.
  unfold terminal, mark_failed.
  rewrite !dict_get_set_ne by discriminate. now rewrite dict_get_set_eq.
Qed.

Lemma terminal_mark_posted t r data : terminal (mark_posted t r data) = true.
Proof.
  unfold terminal, mark_posted.
  rewrite !dict_get_set_ne by discriminate. now rewrite dict_get_set_eq.
Qed.

Lemma publish_fields f data id st :
  pending (publish f data id st) = delete f <$> pending st /\
  done (publish f data id st)
    = Some (<[f := JsonObject (archived_by data st)]> (default ∅ (done st))) /\
  calls (publish f data id st) = calls st ++ [(f, data)].
Proof.
  unfold publish, archived_by. simpl.
  destruct (post_to_x P data (env st)) as [r w]. simpl.
  destruct (clock P w) as [t w']. simpl.
  destruct r; simpl; auto.
Qed.

Lemma terminal_archived_by data st : terminal (archived_by data st) = true.
Proof.
  unfold archived_by. destruct (post_to_x P data (env st)) as [[e|r] w].
  - apply terminal_mark_failed.
  - apply terminal_mark_posted.
Qed.

Lemma publish_pending_file f data id st g :
  pending_file (publish f data id st) g
  = if decide (g = f) then None else pending_file st g.
Proof.
  unfold pending_file. destruct (publish_fields f data id st) as (-> & _ & _).
  destruct (pending st) as [dir|]; simpl.
  - rewrite lookup_delete. destruct (decide (f = g)), (decide (g = f)); congruence.
  - now destruct (decide (g = f)).
Qed.

Lemma publish_done_file f data id st g :
  done_file (publish f data id st) g
  = if decide (g = f) then Some (JsonObject (archived_by data st))
    else done_file st g.
Proof.
  unfold done_file. destruct (publish_fields f data id st) as (_ & -> & _).
  simpl. rewrite lookup_insert.
  destruct (decide (f = g)), (decide (g = f)); try congruence.
  destruct (done st); simpl; [reflexivity|apply lookup_empty].
Qed.

Lemma due_names_elem now st names f :
  f ∈ due_names now st names <-> f ∈ names /\ is_due P now (pending_file st f) = true.
Proof. unfold due_names. now rewrite !list_elem_of_In, filter_In. Qed.

Lemma due_names_agree now st st' names :
  (forall f, f ∈ names -> pending_file st' f = pending_file st f) ->
  due_names now st' names = due_names now st names.
Proof.
  intros H. apply filter_ext_in. intros f Hf.
  rewrite H; [reflexivity|]. now apply list_elem_of_In.
Qed.

Lemma due_names_cons now st f rest :
  due_names now st (f :: rest)
  = if is_due P now (pending_file st f) then f :: due_names now st rest
    else due_names now st rest.
Proof. reflexivity. Qed.

(** A pass that returns: what it counted, called, moved and left alone. *)
Lemma post_due_loop_returned now names : forall st count n st',
  NoDup names ->
  post_due_loop now names count st = Returned n st' ->
  (forall f e, f ∈ names -> examine P now (pending_file st f) <> Fail e) /\
  n = (count + List.length (due_names now st names))%nat /\
  (exists new, calls st' = calls st ++ new /\
               map fst new = due_names now st names /\
               forall f d, (f, d) ∈ new ->
                 exists id, examine P now (pending_file st f) = Publish d id) /\
  (forall f, f ∈ due_names now st names ->
     pending_file st' f = None /\
     exists d, done_file st' f = Some (JsonObject d) /\ terminal d = true) /\
  (forall f, f ∉ due_names now st names ->
     pending_file st' f = pending_file st f /\ done_file st' f = done_file st f).
Proof.
  induction names as [|f rest IH]; intros st count n st' Hnd Hrun.
  - simpl in Hrun. injection Hrun as <- <-.
    refine (conj _ (conj _ (conj _ (conj _ _)))).
    + intros f e Hf. inversion Hf.
    + simpl. lia.
    + exists []. rewrite app_nil_r. repeat split. intros f d Hf. inversion Hf.
    + intros f Hf. inversion Hf.
    + intros f _. now split.
  - apply NoDup_cons in Hnd as [Hf Hnd].
    simpl in Hrun. rewrite process_file_examine in Hrun.
    rewrite due_names_cons. unfold is_due.
    destruct (examine P now (pending_file st f)) as [|data id|e] eqn:Hex;
      [| |discriminate].
    + (* passed over *)
      destruct (IH _ _ _ _ Hnd Hrun) as (Hok & Hn & Hcalls & Hdue & Hrest).
      refine (conj _ (conj Hn (conj Hcalls (conj Hdue Hrest)))).
      intros g e [->|Hg]%elem_of_cons; [congruence|]. now apply Hok.
    + (* published *)
      set (st1 := publish f data id st) in *.
      assert (Hsame : forall g, g ∈ rest -> pending_file st1 g = pending_file st g).
      { intros g Hg. unfold st1. rewrite publish_pending_file.
        destruct (decide (g = f)); [congruence|reflexivity]. }
      destruct (IH _ _ _ _ Hnd Hrun) as (Hok & Hn & Hcalls & Hdue & Hrest).
      rewrite (due_names_agree now st st1 rest Hsame) in *.
      assert (Hfd : f ∉ due_names now st rest).
      { intros [? _]%due_names_elem. contradiction. }
      refine (conj _ (conj _ (conj _ (conj _ _)))).
      * intros g e [->|Hg]%elem_of_cons; [congruence|].
        rewrite <- Hsame by assumption. now apply Hok.
      * simpl. lia.
      * destruct Hcalls as (new & Hc & Hm & Hn').
        exists ((f, data) :: new). repeat split.
        -- rewrite Hc. unfold st1.
           destruct (publish_fields f data id st) as (_ & _ & ->).
           now rewrite <- app_assoc.
        -- simpl. now rewrite Hm.
        -- intros g d [Heq|Hg]%elem_of_cons.
           ++ injection Heq as -> ->. now exists id.
           ++ destruct (Hn' g d Hg) as [id' Hid]. exists id'.
              rewrite <- Hsame; [assumption|].
              assert (g ∈ due_names now st rest) as [? _]%due_names_elem;
                [|assumption].
              rewrite <- Hm. apply list_elem_of_fmap. now exists (g, d).
      * intros g [->|Hg]%elem_of_cons.
        -- destruct (Hrest f Hfd) as [-> ->]. unfold st1.
           rewrite publish_pending_file, publish_done_file.
           destruct (decide (f = f)); [|congruence].
           split; [reflexivity|].
           eexists. split; [reflexivity|apply terminal_archived_by].
        -- now apply Hdue.
      * intros g Hg. apply not_elem_of_cons in Hg as [Hne Hg].
        destruct (Hrest g Hg) as [-> ->]. unfold st1.
        rewrite publish_pending_file, publish_done_file.
        now destruct (decide (g = f)).
Qed.

Lemma post_due_loop_total now names : forall st count,
  NoDup names ->
  (forall f e, f ∈ names -> examine P now (pending_file st f) <> Fail e) ->
  exists n st', post_due_loop now names count st = Returned n st'.
Proof.
  induction names as [|f rest IH]; intros st count Hnd Hok; simpl.
  - eauto.
  - apply NoDup_cons in Hnd as [Hf Hnd].
    rewrite process_file_examine.
    destruct (examine P now (pending_file st f)) as [|data id|e] eqn:Hex.
    + apply IH; [assumption|]. intros g e Hg. apply Hok. now right.
    + apply IH; [assumption|]. intros g e Hg.
      rewrite publish_pending_file.
      destruct (decide (g = f)); [congruence|]. apply Hok. now right.
    + exfalso. eapply Hok; [left|exact Hex].
Qed.

Lemma post_due_loop_skip now names : forall st count,
  (forall f, f ∈ names -> examine P now (pending_file st f) = Skip) ->
  post_due_loop now names count st = Returned count st.
Proof.
  induction names as [|f rest IH]; intros st count Hskip; simpl; [reflexivity|].
  rewrite process_file_examine, (Hskip f) by left.
  apply IH. intros g Hg. apply Hskip. now right.
Qed.

Lemma process_file_dirs now f st :
  (is_Some (pending st) -> is_Some (pending (final (process_file now f st)))) /\
  (is_Some (done st) -> is_Some (done (final (process_file now f st)))).
Proof.
  rewrite process_file_examine.
  destruct (examine P now (pending_file st f)) as [|data id|e]; simpl; auto.
  destruct (publish_fields f data id st) as (-> & -> & _).
  split; [|eauto]. intros [dir ->]. simpl. eauto.
Qed.

Lemma post_due_loop_dirs now names : forall st count,
  (is_Some (pending st) ->
   is_Some (pending (final (post_due_loop now names count st)))) /\
  (is_Some (done st) ->
   is_Some (done (final (post_due_loop now names count st)))).
Proof.
  induction names as [|f rest IH]; intros st count; simpl; [auto|].
  pose proof (process_file_dirs now f st) as [Hp Hd].
  destruct (process_file now f st) as [counted st'|e st']; simpl in *; [|auto].
  destruct (IH st' (if counted then S count else count)) as [Hp' Hd'].
  split; auto.
Qed.

(** *** What the loop decides for a record *)

Lemma scheduled_instant_parse data t :
  scheduled_instant P data = Some t ->
  exists s d, dict_get "scheduled_at" data = Some (JStr s) /\
              fromisoformat P s = Some d /\
              t = PyTime.instant (PyTime.assume_utc d).
Proof.
  unfold scheduled_instant.
  destruct (dict_get "scheduled_at" data) as [[| | |s]|]; try discriminate.
  destruct (fromisoformat P s) as [d|] eqn:Hd; simpl; [|discriminate].
  intros [= <-]. exists s, d. auto.
Qed.

Lemma examine_pending now data t :
  is_pending data = true ->
  scheduled_instant P data = Some t ->
  examine P now (Some (JsonObject data))
  = if PyTime.instant now <? t then Skip
    else match dict_get "id" data with
         | Some id => Publish data id
         | None => Fail (KeyError "id")
         end.
Proof.
  intros Hp (s & d & Hs & Hd & ->)%scheduled_instant_parse.
  unfold examine. rewrite Hp, Hs, Hd. cbn. unfold PyTime.gt.
  destruct (PyTime.instant now <? _); [reflexivity|].
  now destruct (dict_get "id" data).
Qed.

Lemma examine_runnable now x e :
  runnable P x = true -> examine P now (Some x) <> Fail e.
Proof.
  destruct x as [| |data]; cbn; try discriminate.
  destruct (is_pending data) eqn:Hp; cbn; [|discriminate].
  destruct (scheduled_instant P data) as [t|] eqn:Ht; cbn; [|discriminate].
  intros Hid. pose proof (examine_pending now data t Hp Ht) as Hex.
  unfold examine in Hex. rewrite Hp in Hex. cbn in Hex. rewrite Hex.
  destruct (PyTime.instant now <? t); [discriminate|].
  destruct (dict_get "id" data); [discriminate|discriminate].
Qed.

Lemma examine_skip now x :
  examine P now (Some x) = Skip ->
  exists data, x = JsonObject data /\
    (is_pending data = false \/
     exists t, scheduled_instant P data = Some t /\ PyTime.instant now < t).
Proof.
  destruct x as [| |data]; cbn; try discriminate.
  intros H. exists data. split; [reflexivity|].
  destruct (is_pending data); cbn in H; [right|now left].
  unfold scheduled_instant.
  destruct (dict_get "scheduled_at" data) as [[| | |s]|]; try discriminate.
  destruct (fromisoformat P s) as [d|]; cbn; [|discriminate].
  eexists. split; [reflexivity|].
  unfold PyTime.gt in H.
  destruct (PyTime.instant now <? _) eqn:E; [now apply Z.ltb_lt in E|].
  destruct (dict_get "id" data); discriminate.
Qed.

(** *** The invariant, turn by turn *)

Lemma one_location_ext st st' :
  (forall g, pending_file st' g = pending_file st g) ->
  (forall g, done_file st' g = done_file st g) ->
  one_location st -> one_location st'.
Proof.
  intros Hp Hd (H1 & H2 & H3). repeat split.
  - intros f x Hj. rewrite Hp. now apply H1.
  - intros f x Hj. rewrite Hd. now apply H2.
  - intros f Hj. rewrite Hp, Hd. now apply H3.
Qed.

Lemma publish_one_location f data id st :
  one_location st -> one_location (publish f data id st).
Proof.
  intros (H1 & H2 & H3). repeat split.
  - intros g x Hj. rewrite publish_pending_file.
    destruct (decide (g = f)); [discriminate|]. now apply H1.
  - intros g x Hj. rewrite publish_done_file.
    destruct (decide (g = f)); [|now apply H2].
    intros [= <-]. eexists. split; [reflexivity|apply terminal_archived_by].
  - intros g Hj. rewrite publish_pending_file, publish_done_file.
    destruct (decide (g = f)); [now intros [? ?]|]. now apply H3.
Qed.

Lemma process_file_one_location now f st :
  one_location st -> one_location (final (process_file now f st)).
Proof.
  intros H. rewrite process_file_examine.
  destruct (examine P now (pending_file st f)); simpl; auto.
  now apply publish_one_location.
Qed.

Lemma post_due_loop_one_location now names : forall st count,
  one_location st -> one_location (final (post_due_loop now names count st)).
Proof.
  induction names as [|f rest IH]; intros st count H; simpl; [assumption|].
  pose proof (process_file_one_location now f st H) as H'.
  destruct (process_file now f st) as [counted st'|e st']; simpl in *; auto.
Qed.

End PostDue.

(** ** The pass of post-due over a directory *)
Section Pass.

Context {P : Platform}.

Implicit Types (st : state P) (now : PyTime.datetime) (f g : string).

Lemma every_file_spec check (dir : directory) :
  every_file check dir = true <->
  forall f x, json_name f = true -> dir !! f = Some x -> check x = true.
Proof.
  unfold every_file. rewrite forallb_forall. split.
  - intros H f x Hj Hx.
    assert (Hin : f ∈ glob_json dir) by (apply glob_json_elem; eauto).
    apply list_elem_of_In, H in Hin. now rewrite Hx in Hin.
  - intros H f [Hj [x Hx]]%list_elem_of_In%glob_json_elem.
    rewrite Hx. eauto.
Qed.

(** The state in which the loop of [cmd_post_due] starts: [done/] exists and
    the clock was read once. *)
Lemma cmd_post_due_unfold st dir :
  pending st = Some dir ->
  cmd_post_due st =
  match post_due_loop (PyTime.utc (fst (clock P (env st)))) (glob_json dir) 0
          (set_env (snd (clock P (env st))) (set_done (mkdir (done st)) st)) with
  | Raised e st' => Raised e st'
  | Returned n st' => Returned tt (print Stdout (Completed n) st')
  end.
Proof.
  intros Hp. unfold cmd_post_due. rewrite Hp. simpl.
  now destruct (clock P (env st)).
Qed.

Lemma loop_start_files st w :
  (forall g, pending_file (set_env w (set_done (mkdir (done st)) st)) g
             = pending_file st g) /\
  (forall g, done_file (set_env w (set_done (mkdir (done st)) st)) g
             = done_file st g).
Proof.
  split; intros g; unfold pending_file, done_file; simpl; [reflexivity|].
  destruct (done st); simpl; [reflexivity|apply lookup_empty].
Qed.

End Pass.


(** ** Errors of the publish call *)

Lemma post_to_x_error (P : Platform) data (w w' : world P) e :
  post_to_x P data w = (inl e, w') ->
  e = PRuntimeError tweepy_missing \/ e = PValueError credentials_missing \/
  (exists k, e = PKeyError k) \/ (exists msg, e = PClientError msg).
Proof.
  unfold post_to_x.
  destruct (negb (tweepy_installed P)); [intros [= <- _]; auto|].
  destruct (negb (has_credentials P)); [intros [= <- _]; auto|].
  destruct (dict_get "text" data) as [text|]; [|intros [= <- _]; eauto].
  destruct (create_tweet P (kwargs text data) w) as [[msg|response] w1]; simpl.
  - intros [= <- _]. eauto 6.
  - destruct (dict_get "id" response), (dict_get "text" response);
      intros [= <- _] || discriminate; eauto.
Qed.

Lemma own_errors_have_a_message e :
  (forall msg, e = PClientError msg -> msg <> "") ->
  e = PRuntimeError tweepy_missing \/ e = PValueError credentials_missing \/
  (exists k, e = PKeyError k) \/ (exists msg, e = PClientError msg) ->
  str_error e <> "".
Proof.
  intros Hclient [->|[->|[[k ->]|[msg ->]]]]; simpl; try discriminate.
  now apply Hclient.
Qed.



(** ** cancel *)

Lemma cmd_cancel_found (P : Platform) (st : state P) post_id x :
  pending_file st (post_id +:+ ".json") = Some x ->
  cmd_cancel post_id st
  = Returned tt (print Stdout (Cancelled post_id)
                   (set_pending (delete (post_id +:+ ".json") <$> pending st) st)).
Proof. unfold cmd_cancel, pending_file. now intros ->. Qed.

Lemma cmd_cancel_missing (P : Platform) (st : state P) post_id :
  pending_file st (post_id +:+ ".json") = None ->
  cmd_cancel post_id st
  = Raised (SystemExit 1) (print Stderr (CancelNotFound post_id) st).
Proof. unfold cmd_cancel, pending_file. now intros ->. Qed.

Lemma pending_file_delete (P : Platform) (st : state P) m f g :
  pending_file (print Stdout m (set_pending (delete f <$> pending st) st)) g
  = if decide (g = f) then None else pending_file st g.
Proof.
  unfold pending_file. simpl. destruct (pending st) as [dir|]; simpl.
  - rewrite lookup_delete. destruct (decide (f = g)), (decide (g = f)); congruence.
  - now destruct (decide (g = f)).
Qed.


(** C9. For an id that is a file name, cancel fails, with exit status 1,
    exactly when the pending directory has no file [<id>.json]; when it has
    one, the file is deleted whatever it holds: the outcome is the same for
    every content, a record whose status is not pending included. *)
Theorem cancel_looks_at_the_file_name_only (P : Platform) (st : state P)
    (post_id : string) :
  is_component post_id = true ->
  let name := post_id +:+ ".json" in
  (raises (cmd_cancel post_id st) <-> pending_file st name = None) /\
  (forall e st', cmd_cancel post_id st = Raised e st' -> e = SystemExit 1) /\
  (forall x, pending_file st name = Some x ->
     cmd_cancel post_id st
     = Returned tt (print Stdout (Cancelled post_id)
                      (set_pending (delete name <$> pending st) st)) /\
     pending_file (final (cmd_cancel post_id st)) name = None) /\
  (forall data, pending_file st name = Some (JsonObject data) ->
     is_pending data = false ->
     pending_file (final (cmd_cancel post_id st)) name = None).
Proof.
  intros _ name.
  assert (Hfound : forall x, pending_file st name = Some x ->
     cmd_cancel post_id st
     = Returned tt (print Stdout (Cancelled post_id)
                      (set_pending (delete name <$> pending st) st)) /\
     pending_file (final (cmd_cancel post_id st)) name = None).
  { intros x Hx. rewrite (cmd_cancel_found P st post_id x Hx). fold name.
    split; [reflexivity|]. simpl. rewrite pending_file_delete.
    now destruct (decide (name = name)). }
  split; [|split; [|split]].
  - split.
    + intros (e & st' & He).
      destruct (pending_file st name) as [x|] eqn:Hx; [|reflexivity].
      destruct (Hfound x eq_refl) as [Hc _]. congruence.
    + intros Hx. rewrite (cmd_cancel_missing P st post_id Hx).
      now eexists _, _.
  - intros e st' He.
    destruct (pending_file st name) as [x|] eqn:Hx.
    + destruct (Hfound x eq_refl) as [Hc _]. congruence.
    + rewrite (cmd_cancel_missing P st post_id Hx) in He. congruence.
  - exact Hfound.
  - intros data Hx _. now destruct (Hfound _ Hx).
Qed.

(** ** Sorting by key *)
Section KeyedSort.

Context {A : Type}.

Implicit Types (x y : jval * A) (l : list (jval * A)).

Lemma py_lt_asym a b : py_lt a b = Some true -> py_lt b a = Some false.
Proof.
  destruct a as [|[|]|n|s], b as [|[|]|m|t]; simpl; intros H;
    try discriminate; try reflexivity; injection H as H; f_equal.
  all: try (apply Z.ltb_lt in H; apply Z.ltb_ge; lia).
  unfold String.ltb in *. rewrite String.compare_antisym.
  now destruct (String.compare s t).
Qed.

Lemma insert_keyed_perm x l l' :
  insert_keyed x l = inr l' -> Permutation l' (x :: l).
Proof.
  revert l'. induction l as [|y l IH]; simpl; intros l'.
  - now intros [= <-].
  - destruct (py_lt (fst y) (fst x)) as [[]|]; [|now intros [= <-]|discriminate].
    destruct (insert_keyed x l) as [|l''] eqn:E; [discriminate|].
    intros [= <-]. rewrite (IH l'' eq_refl). apply perm_swap.
Qed.

Lemma sort_keyed_perm l l' : sort_keyed l = inr l' -> Permutation l' l.
Proof.
  revert l'. induction l as [|x l IH]; simpl; intros l'.
  - now intros [= <-].
  - destruct (sort_keyed l) as [|s] eqn:E; [discriminate|].
    intros H%insert_keyed_perm. rewrite H. constructor. now apply IH.
Qed.

Lemma insert_keyed_sorted x l l' :
  Sorted not_above l -> insert_keyed x l = inr l' -> Sorted not_above l'.
Proof.
  revert l'. induction l as [|y l IH]; simpl; intros l' Hs.
  - intros [= <-]. repeat constructor.
  - destruct (py_lt (fst y) (fst x)) as [[]|] eqn:Hyx; [| |discriminate].
    + destruct (insert_keyed x l) as [|l''] eqn:E; [discriminate|].
      intros [= <-]. inversion Hs as [|? ? Hl Hhd]; subst.
      constructor; [now apply IH|].
      destruct l as [|z l]; simpl in E.
      * injection E as <-. constructor. now apply py_lt_asym.
      * destruct (py_lt (fst z) (fst x)) as [[]|]; [| |discriminate].
        -- destruct (insert_keyed x l); [discriminate|].
           injection E as <-. constructor. now inversion Hhd.
        -- injection E as <-. constructor. now apply py_lt_asym.
    + intros [= <-]. constructor; [assumption|]. now constructor.
Qed.

Lemma sort_keyed_sorted l l' : sort_keyed l = inr l' -> Sorted not_above l'.
Proof.
  revert l'. induction l as [|x l IH]; simpl; intros l'.
  - intros [= <-]. constructor.
  - destruct (sort_keyed l) as [|s] eqn:E; [discriminate|].
    apply insert_keyed_sorted. now apply IH.
Qed.

Lemma insert_keyed_text x l :
  text_key x -> Forall text_key l -> exists l', insert_keyed x l = inr l'.
Proof.
  intros [s Hs]. induction l as [|y l IH]; simpl; intros Hl; [eauto|].
  inversion Hl as [|? ? [t Ht] Hl']; subst.
  rewrite Hs, Ht. simpl. destruct (String.ltb t s); [|eauto].
  destruct (IH Hl') as [l' ->]. eauto.
Qed.

Lemma sort_keyed_text l : Forall text_key l -> exists l', sort_keyed l = inr l'.
Proof.
  induction l as [|x l IH]; simpl; intros Hl; [eauto|].
  inversion Hl as [|? ? Hx Hl']; subst.
  destruct (IH Hl') as [s Hs]. rewrite Hs.
  apply insert_keyed_text; [assumption|].
  apply sort_keyed_perm in Hs. now rewrite Hs.
Qed.

Lemma with_keys_spec (key : A -> result jval) posts ks :
  with_keys key posts = inr ks ->
  map snd ks = posts /\ Forall (fun kp => key (snd kp) = inr (fst kp)) ks.
Proof.
  revert ks. induction posts as [|p posts IH]; simpl; intros ks.
  - intros [= <-]. split; constructor.
  - destruct (key p) as [|k] eqn:Hk; [discriminate|].
    destruct (with_keys key posts) as [|ks'] eqn:E; [discriminate|].
    intros [= <-]. destruct (IH ks' eq_refl) as [Hm Hf]. simpl.
    split; [now rewrite Hm|]. now constructor.
Qed.

Lemma with_keys_total (key : A -> result jval) posts :
  Forall (fun p => exists k, key p = inr k) posts ->
  exists ks, with_keys key posts = inr ks.
Proof.
  induction posts as [|p posts IH]; simpl; intros H; [eauto|].
  inversion H as [|? ? [k Hk] H']; subst. rewrite Hk.
  destruct (IH H') as [ks ->]. eauto.
Qed.

(** What a sort that ends well returns: the same elements, each key not
    above the next. *)
Lemma sort_posts_spec (key : A -> result jval) posts sorted :
  sort_posts key posts = inr sorted ->
  Permutation sorted posts /\
  Sorted (fun p q => exists kp kq, key p = inr kp /\ key q = inr kq /\
                                   py_lt kq kp = Some false) sorted.
Proof.
  unfold sort_posts.
  destruct (with_keys key posts) as [|ks] eqn:Hk; [discriminate|].
  destruct (sort_keyed ks) as [|s] eqn:Hs; [discriminate|].
  intros [= <-]. apply with_keys_spec in Hk as [Hm Hf].
  pose proof (sort_keyed_perm _ _ Hs) as Hperm.
  split.
  - rewrite <- Hm. now apply Permutation_map.
  - assert (Hf' : Forall (fun kp => key (snd kp) = inr (fst kp)) s)
      by now rewrite Hperm.
    pose proof (sort_keyed_sorted _ _ Hs) as Hsorted.
    clear Hs Hperm Hf Hm. induction Hsorted as [|x l Hl IH Hhd]; simpl.
    + constructor.
    + inversion Hf' as [|? ? Hx Hl']; subst.
      constructor; [now apply IH|].
      destruct Hhd as [|y l Hxy]; simpl; constructor.
      inversion Hl' as [|? ? Hy _]; subst.
      exists (fst x), (fst y). auto.
Qed.

End KeyedSort.

(** ** list and history *)
Section Listings.

Context {P : Platform}.

Implicit Types (st : state P) (dir : directory) (p : dict).

Lemma load_pending_spec dir names posts :
  load_pending dir names = inr posts ->
  posts = flat_map (fun f => match dir !! f with
                             | Some (JsonObject d) => if is_pending d then [d] else []
                             | _ => []
                             end) names /\
  forall f, f ∈ names -> exists d, dir !! f = Some (JsonObject d).
Proof.
  revert posts. induction names as [|f rest IH]; simpl; intros posts.
  - intros [= <-]. split; [reflexivity|]. intros f Hf. inversion Hf.
  - destruct (dir !! f) as [[| |d]|] eqn:Hf; try discriminate.
    destruct (load_pending dir rest) as [|posts'] eqn:E; [discriminate|].
    intros [= <-]. destruct (IH posts' eq_refl) as [-> Hall]. split.
    + now destruct (is_pending d).
    + intros g [->|Hg]%elem_of_cons; eauto.
Qed.

Lemma load_pending_total dir names :
  (forall f, f ∈ names -> exists d, dir !! f = Some (JsonObject d)) ->
  exists posts, load_pending dir names = inr posts.
Proof.
  induction names as [|f rest IH]; simpl; intros H; [eauto|].
  destruct (H f) as [d ->]; [left|].
  destruct IH as [posts ->]; [intros g Hg; apply H; now right|]. eauto.
Qed.

Lemma pending_posts_elem dir p :
  p ∈ pending_posts dir <->
  exists f, json_name f = true /\ dir !! f = Some (JsonObject p) /\
            is_pending p = true.
Proof.
  unfold pending_posts. rewrite list_elem_of_In, in_flat_map. split.
  - intros (f & [Hj [x Hx]]%list_elem_of_In%glob_json_elem & Hp). exists f.
    rewrite Hx in Hp. destruct x as [| |d]; try now inversion Hp.
    destruct (is_pending d) eqn:Hd; [|now inversion Hp].
    destruct Hp as [->|[]]. auto.
  - intros (f & Hj & Hf & Hp). exists f. split.
    + apply list_elem_of_In, glob_json_elem. eauto.
    + rewrite Hf, Hp. now left.
Qed.

Lemma list_entry_inv p m :
  list_entry P p = inr m ->
  m = ListEntry p /\ has_listing_keys p = true /\
  is_Some (scheduled_instant P p).
Proof.
  unfold list_entry, has_listing_keys, scheduled_instant.
  destruct (dict_get "scheduled_at" p) as [[| | |s]|]; try discriminate.
  destruct (fromisoformat P s) as [d|]; [|discriminate].
  destruct (dict_get "id" p); [|discriminate].
  destruct (dict_get "text" p) as [[| | |t]|]; try discriminate.
  intros [= <-]. simpl. eauto.
Qed.

Lemma list_entry_ok p :
  has_listing_keys p = true -> is_Some (scheduled_instant P p) ->
  list_entry P p = inr (ListEntry p).
Proof.
  unfold list_entry, has_listing_keys, scheduled_instant.
  destruct (dict_get "scheduled_at" p) as [[| | |s]|]; try discriminate.
  destruct (fromisoformat P s) as [d|]; simpl; [|now intros _ [? ?]].
  destruct (dict_get "id" p); [|discriminate].
  now destruct (dict_get "text" p) as [[| | |t]|].
Qed.

Lemma print_entries_spec posts : forall st st',
  print_entries (list_entry P) posts st = Returned tt st' ->
  out st' = out st ++ map (fun p => (Stdout, ListEntry p)) posts /\
  pending st' = pending st /\ done st' = done st /\
  Forall (fun p => list_entry P p = inr (ListEntry p)) posts.
Proof.
  induction posts as [|p posts IH]; simpl; intros st st'.
  - intros [= <-]. rewrite app_nil_r. auto.
  - destruct (list_entry P p) as [|m] eqn:Hm; [discriminate|].
    destruct (list_entry_inv _ _ Hm) as (-> & _).
    intros (Ho & Hp & Hd & Hf)%IH. simpl in *.
    rewrite Ho, <- app_assoc. auto.
Qed.

Lemma print_entries_total posts : forall st,
  Forall (fun p => list_entry P p = inr (ListEntry p)) posts ->
  exists st', print_entries (list_entry P) posts st = Returned tt st'.
Proof.
  induction posts as [|p posts IH]; simpl; intros st H; [eauto|].
  inversion H as [|? ? Hp H']; subst. rewrite Hp. now apply IH.
Qed.

Lemma listed_entries posts :
  listed (map (fun p => (Stdout, ListEntry p)) posts) = posts.
Proof. induction posts as [|p posts IH]; simpl; [reflexivity|]. now rewrite IH. Qed.

(** A successful run of [list]: what it printed. *)
Lemma cmd_list_returned st dir st' :
  pending st = Some dir ->
  cmd_list st = Returned tt st' ->
  exists shown,
    out st' = out st ++ shown /\
    Permutation (listed shown) (pending_posts dir) /\
    Forall (fun p => list_entry P p = inr (ListEntry p)) (listed shown) /\
    Sorted scheduled_text_le (listed shown) /\
    pending st' = pending st /\ done st' = done st /\
    forall f, f ∈ glob_json dir -> exists d, dir !! f = Some (JsonObject d).
Proof.
  intros Hp. unfold cmd_list. rewrite Hp.
  destruct (load_pending dir (glob_json dir)) as [|posts] eqn:Hload; [discriminate|].
  apply load_pending_spec in Hload as [Hposts Hobj].
  fold (pending_posts dir) in Hposts.
  destruct posts as [|p posts].
  - intros [= <-]. exists [(Stdout, NoPending)]. rewrite <- Hposts. simpl.
    repeat split; auto; constructor.
  - set (all := p :: posts) in *.
    destruct (sort_posts scheduled_at_key all) as [|sorted] eqn:Hsort; [discriminate|].
    apply sort_posts_spec in Hsort as [Hperm Hsorted].
    intros (Ho & Hp' & Hd & Hf)%print_entries_spec. simpl in Ho.
    exists ((Stdout, ListHeader (List.length sorted))
              :: map (fun p => (Stdout, ListEntry p)) sorted).
    simpl. rewrite listed_entries. rewrite <- app_assoc in Ho. simpl in Ho.
    split; [exact Ho|]. split; [now rewrite Hperm, Hposts|].
    split; [exact Hf|].
    split; [|simpl in Hp', Hd; repeat split; congruence || assumption].
    clear Hperm Ho. induction Hsorted as [|q l Hl IH Hhd]; [constructor|].
    inversion Hf as [|? ? Hq Hf']; subst.
    constructor; [now apply IH|].
    destruct Hhd as [|r l (kq & kr & Hkq & Hkr & Hlt)]; constructor.
    inversion Hf' as [|? ? Hr _]; subst.
    apply list_entry_inv in Hq as (_ & Hq & _).
    apply list_entry_inv in Hr as (_ & Hr & _).
    unfold has_listing_keys in Hq, Hr. unfold scheduled_at_key in Hkq, Hkr.
    unfold scheduled_text_le.
    destruct (dict_get "scheduled_at" q) as [[| | |s]|]; try discriminate.
    destruct (dict_get "scheduled_at" r) as [[| | |t]|]; try discriminate.
    injection Hkq as <-. injection Hkr as <-. simpl in Hlt.
    exists s, t. repeat split. injection Hlt as Hlt.
    unfold String.ltb in Hlt. unfold String.leb.
    rewrite String.compare_antisym. now destruct (String.compare t s).
Qed.

(** [list] ends well on a directory whose files it can read. *)
Lemma cmd_list_total st dir :
  pending st = Some dir ->
  every_file (listable P) dir = true ->
  exists st', cmd_list st = Returned tt st'.
Proof.
  intros Hp Hok. pose proof (proj1 (every_file_spec _ _) Hok) as Hall.
  unfold cmd_list. rewrite Hp.
  destruct (load_pending_total dir (glob_json dir)) as [posts Hload].
  { intros f [Hj [x Hx]]%glob_json_elem. specialize (Hall f x Hj Hx).
    destruct x; try discriminate. eauto. }
  rewrite Hload. apply load_pending_spec in Hload as [Hposts _].
  fold (pending_posts dir) in Hposts.
  assert (Hgood : Forall (fun p => list_entry P p = inr (ListEntry p)) posts).
  { apply Forall_forall. intros p Hin. rewrite Hposts in Hin.
    apply pending_posts_elem in Hin as (f & Hj & Hf & Hpend).
    specialize (Hall f _ Hj Hf). simpl in Hall. rewrite Hpend in Hall.
    simpl in Hall. apply andb_true_iff in Hall as [Hk Hs].
    apply list_entry_ok; [assumption|].
    destruct (scheduled_instant P p); [eauto|discriminate]. }
  destruct posts as [|p posts]; [eauto|].
  set (all := p :: posts) in *. clearbody all.
  unfold sort_posts.
  destruct (with_keys_total scheduled_at_key all) as [ks Hks].
  { eapply Forall_impl; [exact Hgood|]. intros q Hq. simpl in Hq.
    apply list_entry_inv in Hq as (_ & Hq & _).
    unfold has_listing_keys in Hq. unfold scheduled_at_key.
    destruct (dict_get "scheduled_at" q); [eauto|discriminate]. }
  rewrite Hks. pose proof (with_keys_spec _ _ _ Hks) as [Hm Hkeys].
  destruct (sort_keyed_text ks) as [s Hs].
  { apply Forall_forall. intros [k q] Hin.
    pose proof (proj1 (Forall_forall _ _) Hkeys _ Hin) as Hk. simpl in Hk.
    assert (Hq : q ∈ all).
    { rewrite <- Hm. apply list_elem_of_fmap. now exists (k, q). }
    pose proof (proj1 (Forall_forall _ _) Hgood _ Hq) as Hg. simpl in Hg.
    apply list_entry_inv in Hg as (_ & Hg & _).
    unfold has_listing_keys in Hg. unfold scheduled_at_key in Hk.
    destruct (dict_get "scheduled_at" q) as [[| | |t]|]; try discriminate.
    injection Hk as <-. now exists t. }
  rewrite Hs. apply print_entries_total.
  apply sort_keyed_perm in Hs.
  assert (Hperm : Permutation (map snd s) all).
  { rewrite <- Hm. now apply Permutation_map. }
  now rewrite Hperm.
Qed.

End Listings.

Section ListingsFail.

Context {P : Platform}.

Implicit Types (st : state P) (dir : directory).

Lemma load_all_spec dir names posts :
  load_all dir names = inr posts ->
  forall f, f ∈ names -> exists x, dir !! f = Some x /\ x ∈ posts.
Proof.
  revert posts. induction names as [|f rest IH]; simpl; intros posts.
  - intros _ f Hf. inversion Hf.
  - destruct (dir !! f) as [x|] eqn:Hf; [|discriminate].
    assert (Hx : match load_all dir rest with
                 | inl e => inl e
                 | inr posts' => inr (x :: posts')
                 end = inr posts -> exists posts', load_all dir rest = inr posts'
                                                   /\ posts = x :: posts').
    { destruct (load_all dir rest); [discriminate|]. intros [= <-]. eauto. }
    intros H.
    assert (H' : exists posts', load_all dir rest = inr posts' /\ posts = x :: posts').
    { destruct x; [discriminate|now apply Hx|now apply Hx]. }
    destruct H' as (posts' & Hrest & ->).
    intros g [->|Hg]%elem_of_cons.
    + exists x. split; [assumption|left].
    + destruct (IH _ Hrest g Hg) as (y & Hy & Hin). exists y.
      split; [assumption|now right].
Qed.

Lemma sort_posts_reverse_spec {A : Type} (key : A -> result jval) posts sorted :
  sort_posts_reverse key posts = inr sorted ->
  Permutation sorted posts /\ Forall (fun x => exists k, key x = inr k) posts.
Proof.
  unfold sort_posts_reverse.
  destruct (with_keys key posts) as [|ks] eqn:Hk; [discriminate|].
  destruct (sort_keyed (rev ks)) as [|s] eqn:Hs; [discriminate|].
  intros [= <-]. apply with_keys_spec in Hk as [Hm Hf].
  apply sort_keyed_perm in Hs. split.
  - rewrite <- Hm. apply Permutation_map.
    rewrite <- Permutation_rev, Hs. symmetry. apply Permutation_rev.
  - rewrite <- Hm. apply Forall_forall. intros x [[k y] [-> Hin]]%list_elem_of_fmap.
    exists k. exact (proj1 (Forall_forall _ _) Hf _ Hin).
Qed.

Lemma print_history_spec posts : forall st st',
  print_history posts st = Returned tt st' ->
  Forall (fun x => exists m, history_entry x = inr m) posts.
Proof.
  induction posts as [|x posts IH]; simpl; intros st st' H; [constructor|].
  destruct (history_entry x) as [|m] eqn:Hm; [discriminate|].
  constructor; [eauto|]. eapply IH, H.
Qed.

Lemma history_readable_of x k m :
  posted_at_key x = inr k -> history_entry x = inr m -> history_readable x = true.
Proof.
  destruct x as [| |d]; simpl; try discriminate.
  destruct (dict_get "scheduled_at" d); [|discriminate].
  destruct (dict_get "id" d); [|discriminate].
  now destruct (dict_get "text" d) as [[| | |t]|].
Qed.

(** A run of [history] that ends well read nothing but records. *)
Lemma cmd_history_returned st dir st' :
  done st = Some dir ->
  cmd_history st = Returned tt st' ->
  every_file history_readable dir = true.
Proof.
  intros Hd. unfold cmd_history. rewrite Hd.
  destruct (load_all dir (glob_json dir)) as [|posts] eqn:Hload; [discriminate|].
  pose proof (load_all_spec _ _ _ Hload) as Hall.
  destruct posts as [|x posts].
  - intros _. apply every_file_spec. intros f y Hj Hy.
    destruct (Hall f) as (? & _ & Hin); [apply glob_json_elem; eauto|].
    inversion Hin.
  - set (all := x :: posts) in *.
    destruct (sort_posts_reverse posted_at_key all) as [|sorted] eqn:Hsort;
      [discriminate|].
    apply sort_posts_reverse_spec in Hsort as [Hperm Hkeys].
    intros Hprint%print_history_spec. rewrite Hperm in Hprint.
    apply every_file_spec. intros f y Hj Hy.
    destruct (Hall f) as (y' & Hy' & Hin); [apply glob_json_elem; eauto|].
    assert (y' = y) as -> by congruence.
    destruct (proj1 (Forall_forall _ _) Hkeys _ Hin) as [k Hk].
    destruct (proj1 (Forall_forall _ _) Hprint _ Hin) as [m Hm].
    eapply history_readable_of; eassumption.
Qed.

Lemma not_returned_raises {A : Type} (o : outcome P A) :
  (forall a st', o <> Returned a st') -> raises o.
Proof.
  destruct o as [a st'|e st']; intros H; [now destruct (H a st')|].
  now exists e, st'.
Qed.

End ListingsFail.

(** C4, as the code has it. [list] on a project without the pending
    directory prints that there is nothing and returns. On a directory it
    can read it returns, and whenever it returns it has printed exactly the
    records of the directory whose status is pending, each once, in an
    order in which the stored text of [scheduled_at] never decreases under
    code-point comparison; the directories are left as they were. *)
Theorem list_shows_pending_posts_in_text_order (P : Platform) (st : state P) :
  (pending st = None -> cmd_list st = Returned tt (print Stdout NoPending st)) /\
  (forall dir st', pending st = Some dir -> cmd_list st = Returned tt st' ->
     exists shown,
       out st' = out st ++ shown /\
       Permutation (listed shown) (pending_posts dir) /\
       Forall (fun p => is_pending p = true) (listed shown) /\
       Sorted scheduled_text_le (listed shown) /\
       pending st' = pending st /\ done st' = done st) /\
  (forall dir, pending st = Some dir -> every_file (listable P) dir = true ->
     exists st', cmd_list st = Returned tt st').
Proof.
  split; [|split].
  - intros Hp. unfold cmd_list. now rewrite Hp.
  - intros dir st' Hp Hrun.
    destruct (cmd_list_returned st dir st' Hp Hrun)
      as (shown & Ho & Hperm & _ & Hsorted & Hp' & Hd' & _).
    exists shown. repeat split; try assumption.
    apply Forall_forall. intros p Hin. rewrite Hperm in Hin.
    now apply pending_posts_elem in Hin as (f & _ & _ & Hpend).
  - intros dir. apply cmd_list_total.
Qed.

(** C10, as the code has it. [list] fails as a whole exactly when some
    [*.json] file of the pending directory, [._] files apart, is no JSON,
    is no object, or is an object with status pending that lacks a
    [scheduled_at] that parses, an [id] or a text; an object with any other
    status is passed over whatever else it holds. [history] fails as a
    whole when some such file of the archive is no JSON, is no object or
    lacks [scheduled_at], [id] or a text. *)
Theorem listings_fail_on_files_they_cannot_read (P : Platform) (st : state P) :
  (forall dir, pending st = Some dir ->
     (raises (cmd_list st) <-> every_file (listable P) dir = false)) /\
  (forall dir, done st = Some dir ->
     every_file history_readable dir = false -> raises (cmd_history st)) /\
  (forall d, is_pending d = false -> listable P (JsonObject d) = true) /\
  (forall d, is_pending d = true ->
     listable P (JsonObject d) = true ->
     has_listing_keys d = true /\ is_Some (scheduled_instant P d)) /\
  listable P NotJson = false /\ listable P JsonOther = false /\
  history_readable NotJson = false /\ history_readable JsonOther = false.
Proof.
  split; [|split; [|split; [|split]]].
  - intros dir Hp. split.
    + intros (e & st' & Hrun).
      destruct (every_file (listable P) dir) eqn:Hok; [|reflexivity].
      destruct (cmd_list_total st dir Hp Hok) as [st'' Hret]. congruence.
    + intros Hbad. apply not_returned_raises. intros [] st' Hrun.
      destruct (cmd_list_returned st dir st' Hp Hrun)
        as (shown & _ & Hperm & Hentries & _ & _ & _ & Hobj).
      assert (Hok : every_file (listable P) dir = true); [|congruence].
      apply every_file_spec. intros f x Hj Hx.
      destruct (Hobj f) as [d Hd]; [apply glob_json_elem; eauto|].
      assert (x = JsonObject d) as -> by congruence. simpl.
      destruct (is_pending d) eqn:Hpend; [simpl|reflexivity].
      assert (Hin : d ∈ listed shown).
      { rewrite Hperm. apply pending_posts_elem. eauto. }
      pose proof (proj1 (Forall_forall _ _) Hentries _ Hin) as He. simpl in He.
      apply list_entry_inv in He as (_ & -> & [t ->]). reflexivity.
  - intros dir Hd Hbad. apply not_returned_raises. intros [] st' Hrun.
    pose proof (cmd_history_returned st dir st' Hd Hrun). congruence.
  - intros d Hpend. simpl. now rewrite Hpend.
  - intros d Hpend. simpl. rewrite Hpend. simpl.
    intros [Hk Hs]%andb_true_iff. split; [assumption|].
    destruct (scheduled_instant P d); [eauto|discriminate].
  - repeat split.
Qed.

(** ** The digest on the test suite of RFC 1321 *)

Example md5_of_the_empty_string :
  Md5.hexdigest "" = "d41d8cd98f00b204e9800998ecf8427e".
Proof. vm_compute. reflexivity. Qed.

Example md5_of_abc : Md5.hexdigest "abc" = "900150983cd24fb0d6963f7d28e17f72".
Proof. vm_compute. reflexivity. Qed.

Example md5_of_eighty_digits :
  Md5.hexdigest
    ("1234567890123456789012345678901234567890" +:+
     "1234567890123456789012345678901234567890")
  = "57edf4a22be3c955ac49da2e2107b67a".
Proof. vm_compute. reflexivity. Qed.

(** ** add *)

Lemma is_hex_hex_digit n : 0 <= n < 16 -> is_hex (Md5.hex_digit n) = true.
Proof.
  intros H. rewrite <- (Z2Nat.id n) by lia.
  assert (Hk : (Z.to_nat n < 16)%nat) by lia.
  generalize dependent (Z.to_nat n). clear. intros k Hk.
  do 16 (destruct k as [|k]; [reflexivity|]). lia.
Qed.

Lemma is_digit_digit n : is_digit (PyTime.digit n) = true.
Proof.
  unfold PyTime.digit.
  pose proof (Z.mod_pos_bound n 10 ltac:(lia)) as H.
  rewrite <- (Z2Nat.id (n mod 10)) by lia.
  assert (Hk : (Z.to_nat (n mod 10) < 10)%nat) by lia.
  generalize dependent (Z.to_nat (n mod 10)). clear. intros k Hk.
  do 10 (destruct k as [|k]; [reflexivity|]). lia.
Qed.

Lemma byte_nibbles y :
  0 <= Z.shiftr (Z.land y 255) 4 < 16 /\ 0 <= Z.land (Z.land y 255) 15 < 16.
Proof.
  change 255 with (Z.ones 8). change 15 with (Z.ones 4).
  rewrite !Z.land_ones, Z.shiftr_div_pow2 by lia.
  pose proof (Z.mod_pos_bound y (2 ^ 8) ltac:(lia)).
  pose proof (Z.mod_pos_bound (y mod 2 ^ 8) (2 ^ 4) ltac:(lia)).
  split; [|lia]. split; [apply Z.div_pos; lia|].
  apply Z.div_lt_upper_bound; lia.
Qed.

(** The first six characters of a digest are hexadecimal digits. *)
Lemma hexdigest_prefix s :
  String.length (substring 0 6 (Md5.hexdigest s)) = 6%nat /\
  all_chars is_hex (substring 0 6 (Md5.hexdigest s)) = true.
Proof.
  unfold Md5.hexdigest, Md5.digest.
  set (r := Md5.chunks _ _ _). clearbody r.
  split; unfold Md5.le_bytes at 1;
    cbn [seq map app Md5.hex substring String.length all_chars
         list_ascii_of_string forallb]; [reflexivity|].
  repeat match goal with
         | |- context [is_hex (Md5.hex_digit (Z.shiftr (Z.land ?y 255) 4))] =>
             rewrite (is_hex_hex_digit _ (proj1 (byte_nibbles y)))
         | |- context [is_hex (Md5.hex_digit (Z.land (Z.land ?y 255) 15))] =>
             rewrite (is_hex_hex_digit _ (proj2 (byte_nibbles y)))
         end.
  reflexivity.
Qed.

Lemma strftime_compact_form d : compact_form (PyTime.strftime_compact d) = true.
Proof.
  unfold compact_form, PyTime.strftime_compact, PyTime.dec4, PyTime.dec2.
  repeat match goal with
         | |- context [PyTime.digit ?n] =>
             let c := fresh "c" in
             pose proof (is_digit_digit n);
             set (c := PyTime.digit n) in *; clearbody c
         end.
  simpl. unfold all_chars. simpl.
  repeat match goal with
         | H : is_digit _ = true |- _ => rewrite H; clear H
         end.
  reflexivity.
Qed.

Lemma append_assoc (a b c : string) : (a +:+ b) +:+ c = a +:+ b +:+ c.
Proof.
  induction a as [|x a IH]; [reflexivity|].
  change (String x ((a +:+ b) +:+ c) = String x (a +:+ b +:+ c)). now f_equal.
Qed.

Section Add.

Context {P : Platform}.

Implicit Types (st : state P) (args : add_args).

Lemma cmd_add_unparsed args st :
  parse_scheduled P (arg_datetime args) = None ->
  cmd_add args st =
  let st0 := set_pending (mkdir (pending st)) st in
  match ZoneInfo P (arg_timezone args) with
  | None => Raised (ZoneInfoNotFoundError (arg_timezone args)) st0
  | Some _ =>
      Raised (SystemExit 1)
        (print Stderr DatetimeFormatHint
           (print Stderr (BadDatetime (arg_datetime args)) st0))
  end.
Proof.
  unfold parse_scheduled, cmd_add. intros H. cbv zeta.
  destruct (ZoneInfo P (arg_timezone args)); [|reflexivity].
  now rewrite H.
Qed.

(** An [add] that returns: the record it wrote and where. *)
Lemma cmd_add_returned args st post st' :
  cmd_add args st = Returned post st' ->
  exists scheduled local_now,
    is_Some (ZoneInfo P (arg_timezone args)) /\
    parse_scheduled P (arg_datetime args) = Some scheduled /\
    dict_get "id" post = Some (JStr (generate_post_id scheduled local_now)) /\
    dict_get "text" post = Some (JStr (arg_text args)) /\
    is_pending post = true /\
    pending st'
    = Some (<[generate_post_id scheduled local_now +:+ ".json" := JsonObject post]>
              (default ∅ (pending st))) /\
    done st' = done st.
Proof.
  unfold cmd_add, parse_scheduled.
  destruct (ZoneInfo P (arg_timezone args)) as [tz|]; [|discriminate].
  destruct (match strptime P _ FmtMinutes with Some d => Some d | None => _ end)
    as [scheduled|]; [|discriminate].
  cbn [env set_pending].
  destruct (clock P (env st)) as [t w].
  destruct (PyTime.wall_le scheduled (zone_fromutc tz t));
    cbn [env set_env set_pending print];
    destruct (clock P w) as [t' w'];
    intros [= <- <-]; exists scheduled, (localtime P t');
    cbn; repeat split; eauto.
Qed.

End Add.

(** C5, as the code has it. [add] with a date and time that fits neither
    format writes no file: no file of the pending directory or of the
    archive changes. When the time zone is known it reports the value and
    the expected format on the error stream and exits with status 1; the
    text is not looked at. *)
Theorem add_rejects_unparseable_datetime (P : Platform) (st : state P)
    (args : add_args) :
  parse_scheduled P (arg_datetime args) = None ->
  exists e st',
    cmd_add args st = Raised e st' /\
    (forall f, pending_file st' f = pending_file st f) /\
    done st' = done st /\
    (is_Some (ZoneInfo P (arg_timezone args)) ->
     e = SystemExit 1 /\
     out st' = out st ++ [ (Stderr, BadDatetime (arg_datetime args));
                           (Stderr, DatetimeFormatHint) ]) /\
    (ZoneInfo P (arg_timezone args) = None ->
     e = ZoneInfoNotFoundError (arg_timezone args) /\ out st' = out st).
Proof.
  intros H. rewrite (cmd_add_unparsed args st H). simpl.
  assert (Hfiles : forall f,
    pending_file (set_pending (mkdir (pending st)) st) f = pending_file st f).
  { intros f. unfold pending_file. simpl.
    destruct (pending st); simpl; [reflexivity|apply lookup_empty]. }
  destruct (ZoneInfo P (arg_timezone args)) as [tz|]; eexists _, _;
    (split; [reflexivity|]); (split; [exact Hfiles|]); (split; [reflexivity|]);
    split; try (intros [? ?]; discriminate); try discriminate; intros _; split;
    try reflexivity.
  simpl. now rewrite <- app_assoc.
Qed.


(** ** One place for every record *)
Section OneLocation.

Context {P : Platform}.

Implicit Types (st : state P) (f g : string).

Lemma moves_to_archive_ext st1 st1' st2 st2' :
  (forall g, pending_file st1' g = pending_file st1 g) ->
  (forall g, done_file st1' g = done_file st1 g) ->
  (forall g, pending_file st2' g = pending_file st2 g) ->
  (forall g, done_file st2' g = done_file st2 g) ->
  moves_to_archive st1 st2 -> moves_to_archive st1' st2'.
Proof.
  intros Hp1 Hd1 Hp2 Hd2 H f. unfold archived_terminal in *.
  rewrite Hp1, Hp2, Hd1, Hd2. apply H.
Qed.

Lemma moves_to_archive_refl st : moves_to_archive st st.
Proof. intros f. auto. Qed.

Lemma moves_to_archive_trans st1 st2 st3 :
  moves_to_archive st1 st2 -> moves_to_archive st2 st3 ->
  moves_to_archive st1 st3.
Proof.
  intros H12 H23 f. destruct (H12 f) as [H12p H12d], (H23 f) as [H23p H23d].
  split; [|auto].
  destruct H23p as [->|[-> Ha]]; [|auto].
  destruct H12p as [->|[-> Ha]]; auto.
Qed.

Lemma publish_moves_to_archive f data id st :
  moves_to_archive st (publish f data id st).
Proof.
  intros g. unfold archived_terminal.
  rewrite publish_pending_file, publish_done_file.
  destruct (decide (g = f)) as [->|]; [|auto].
  assert (exists d, Some (JsonObject (archived_by data st)) = Some (JsonObject d)
                    /\ terminal d = true)
    by (eexists; split; [reflexivity|apply terminal_archived_by]).
  auto.
Qed.

Lemma process_file_moves_to_archive now f st :
  moves_to_archive st (final (process_file now f st)).
Proof.
  rewrite process_file_examine.
  destruct (examine P now (pending_file st f)); simpl;
    auto using moves_to_archive_refl, publish_moves_to_archive.
Qed.

Lemma post_due_loop_moves_to_archive now names : forall st count,
  moves_to_archive st (final (post_due_loop now names count st)).
Proof.
  induction names as [|f rest IH]; intros st count; simpl.
  - apply moves_to_archive_refl.
  - pose proof (process_file_moves_to_archive now f st) as H.
    destruct (process_file now f st) as [counted st'|e st']; simpl in *; auto.
    eapply moves_to_archive_trans; [exact H|apply IH].
Qed.

Lemma cmd_post_due_final st :
  one_location st ->
  one_location (final (cmd_post_due st)) /\
  moves_to_archive st (final (cmd_post_due st)).
Proof.
  intros Hinv. destruct (pending st) as [dir|] eqn:Hp.
  - rewrite (cmd_post_due_unfold st dir Hp).
    set (now := PyTime.utc _). set (st0 := set_env _ _).
    destruct (loop_start_files st (snd (clock P (env st)))) as [Hpf Hdf].
    fold st0 in Hpf, Hdf.
    assert (H0 : one_location st0) by now apply (one_location_ext st).
    pose proof (post_due_loop_one_location now (glob_json dir) st0 0%nat H0) as H1.
    pose proof (post_due_loop_moves_to_archive now (glob_json dir) st0 0%nat) as H2.
    destruct (post_due_loop now (glob_json dir) 0 st0) as [n st1|e st1];
      simpl in *.
    + split.
      * now apply (one_location_ext st1).
      * now apply (moves_to_archive_ext st0 st st1).
    + split; [assumption|]. now apply (moves_to_archive_ext st0 st st1).
  - unfold cmd_post_due. rewrite Hp. simpl. split.
    + now apply (one_location_ext st).
    + apply (moves_to_archive_ext st st st); auto using moves_to_archive_refl.
Qed.

Lemma cmd_cancel_one_location post_id st :
  one_location st -> one_location (final (cmd_cancel post_id st)).
Proof.
  intros (H1 & H2 & H3).
  destruct (pending_file st (post_id +:+ ".json")) as [x|] eqn:Hx.
  - rewrite (cmd_cancel_found P st post_id x Hx). simpl. repeat split.
    + intros f y Hj. rewrite pending_file_delete.
      destruct (decide (f = _)); [discriminate|]. now apply H1.
    + intros f y Hj. now apply H2.
    + intros f Hj. rewrite pending_file_delete.
      destruct (decide (f = _)); [now intros [? ?]|]. now apply H3.
  - rewrite (cmd_cancel_missing P st post_id Hx). simpl.
    now apply (one_location_ext st).
Qed.

Lemma cmd_add_one_location args st :
  (forall post st', cmd_add args st = Returned post st' ->
     forall id, dict_get "id" post = Some (JStr id) ->
       done_file st (id +:+ ".json") = None) ->
  one_location st -> one_location (final (cmd_add args st)).
Proof.
  intros Hfresh Hinv.
  assert (Hmk : forall f,
    pending_file (set_pending (mkdir (pending st)) st) f = pending_file st f).
  { intros f. unfold pending_file. simpl.
    destruct (pending st); simpl; [reflexivity|apply lookup_empty]. }
  destruct (cmd_add args st) as [post st'|e st'] eqn:Hrun.
  - specialize (Hfresh post st' eq_refl).
    apply cmd_add_returned in Hrun
      as (scheduled & now & _ & _ & Hid & _ & Hpend & Hp & Hd).
    specialize (Hfresh _ Hid). set (name := _ +:+ ".json") in *.
    assert (Hpf : forall f, pending_file st' f
                  = if decide (f = name) then Some (JsonObject post)
                    else pending_file st f).
    { intros f. unfold pending_file. rewrite Hp. simpl. rewrite lookup_insert.
      destruct (decide (name = f)), (decide (f = name)); try congruence.
      destruct (pending st); simpl; [reflexivity|apply lookup_empty]. }
    assert (Hdf : forall f, done_file st' f = done_file st f).
    { intros f. unfold done_file. now rewrite Hd. }
    destruct Hinv as (H1 & H2 & H3). simpl. repeat split.
    + intros f x Hj. rewrite Hpf. destruct (decide (f = name)); [|now apply H1].
      intros [= <-]. eauto.
    + intros f x Hj. rewrite Hdf. now apply H2.
    + intros f Hj. rewrite Hpf, Hdf.
      destruct (decide (f = name)) as [->|]; [|now apply H3].
      rewrite Hfresh. now intros _ [? ?].
  - simpl. revert Hrun. unfold cmd_add.
    destruct (ZoneInfo P (arg_timezone args)) as [tz|].
    + destruct (match strptime P _ FmtMinutes with Some d => Some d | None => _ end)
        as [scheduled|].
      * cbn [env set_pending].
        destruct (clock P (env st)) as [t w].
        destruct (PyTime.wall_le scheduled (zone_fromutc tz t));
          cbn [env set_env set_pending print];
          destruct (clock P w) as [t' w']; discriminate.
      * intros [= _ <-]. now apply (one_location_ext st).
    + intros [= _ <-]. now apply (one_location_ext st).
Qed.

End OneLocation.


(** * The rest of the program *)

Lemma leb_ne_ltb a b : String.leb a b = true -> a <> b -> String.ltb a b = true.
Proof.
  unfold String.leb, String.ltb. intros H Hne.
  destruct (String.compare a b) eqn:Hc; try easy.
  now apply String.compare_eq_iff in Hc.
Qed.

Lemma Sorted_NoDup_strict l :
  Sorted (fun a b => String.leb a b = true) l -> NoDup l ->
  Sorted (fun a b => String.ltb a b = true) l.
Proof.
  induction 1 as [|a l Hl IH Hhd]; intros Hnd; [constructor|].
  apply NoDup_cons in Hnd as [Ha Hnd].
  constructor; [now apply IH|].
  destruct Hhd as [|b l Hab]; constructor.
  apply leb_ne_ltb; [assumption|]. intros ->. apply Ha. left.
Qed.

(** X1. [glob_json] returns the names of the directory that end in
    [.json] and do not begin with [._], and no other name, in strictly
    increasing code-point order: each name once. *)
Theorem glob_json_lists_json_files_in_name_order (d : directory) :
  Sorted (fun a b => String.ltb a b = true) (glob_json d) /\
  forall f, f ∈ glob_json d <->
    is_Some (d !! f) /\ ends_with ".json" f = true /\ String.prefix "._" f = false.
Proof.
  split.
  - apply Sorted_NoDup_strict; [apply sort_names_sorted|apply glob_json_NoDup].
  - intros f. rewrite glob_json_elem. unfold json_name.
    rewrite andb_true_iff, negb_true_iff. tauto.
Qed.

Lemma Sorted_snoc {A : Type} (R : A -> A -> Prop) l x :
  Sorted R l -> (forall y, last l = Some y -> R y x) -> Sorted R (l ++ [x]).
Proof.
  induction 1 as [|a l Hl IH Hhd]; simpl; intros Hlast.
  - repeat constructor.
  - constructor.
    + apply IH. intros y Hy. apply Hlast. destruct l; [discriminate|exact Hy].
    + destruct Hhd as [|b l Hab]; simpl; constructor; [|assumption].
      now apply Hlast.
Qed.

Lemma Sorted_rev_flip {A : Type} (R : A -> A -> Prop) l :
  Sorted R l -> Sorted (fun a b => R b a) (rev l).
Proof.
  induction 1 as [|a l Hl IH Hhd]; simpl; [constructor|].
  apply Sorted_snoc; [assumption|].
  intros y Hy. destruct Hhd as [|b l Hab]; [discriminate|].
  simpl in Hy. rewrite last_snoc in Hy. now injection Hy as <-.
Qed.

Section Archive.

Context {P : Platform}.

Implicit Types (st : state P) (dir : directory).

Lemma load_all_lookup dir names posts :
  load_all dir names = inr posts ->
  Forall2 (fun f x => dir !! f = Some x) names posts.
Proof.
  revert posts. induction names as [|f rest IH]; simpl; intros posts.
  - intros [= <-]. constructor.
  - destruct (dir !! f) as [x|] eqn:Hf; [|discriminate].
    destruct (load_all dir rest) as [e|posts'].
    + now destruct x.
    + intros H. assert (posts = x :: posts') as -> by (destruct x; congruence).
      constructor; [assumption|now apply IH].
Qed.

Lemma records_of_lookup dir names ds :
  Forall2 (fun f x => dir !! f = Some x) names (map JsonObject ds) ->
  flat_map (fun f => match dir !! f with
                     | Some (JsonObject d) => [d]
                     | _ => []
                     end) names = ds.
Proof.
  revert ds. induction names as [|f rest IH]; intros [|d ds] H;
    inversion H as [|? ? ? ? Hf Hrest]; subst; simpl; [reflexivity|].
  rewrite Hf. simpl. f_equal. now apply IH.
Qed.

Lemma sort_posts_reverse_sorted {A : Type} (key : A -> result jval) posts sorted :
  sort_posts_reverse key posts = inr sorted ->
  Sorted (fun p q => exists a b, key p = inr a /\ key q = inr b /\
                                 py_lt a b = Some false) sorted.
Proof.
  unfold sort_posts_reverse.
  destruct (with_keys key posts) as [|ks] eqn:Hk; [discriminate|].
  destruct (sort_keyed (rev ks)) as [|s] eqn:Hs; [discriminate|].
  intros [= <-]. apply with_keys_spec in Hk as [_ Hf].
  pose proof (sort_keyed_perm _ _ Hs) as Hperm.
  assert (Hf' : Forall (fun kp => key (snd kp) = inr (fst kp)) (rev s)).
  { rewrite <- Permutation_rev, Hperm, <- Permutation_rev. exact Hf. }
  pose proof (Sorted_rev_flip _ _ (sort_keyed_sorted _ _ Hs)) as Hsorted.
  clear Hs Hperm Hf. induction Hsorted as [|x l Hl IH Hhd]; simpl.
  - constructor.
  - inversion Hf' as [|? ? Hx Hl']; subst.
    constructor; [now apply IH|].
    destruct Hhd as [|y l Hxy]; simpl; constructor.
    inversion Hl' as [|? ? Hy _]; subst.
    exists (fst x), (fst y). auto.
Qed.

Lemma print_history_out posts : forall st st',
  print_history posts st = Returned tt st' ->
  exists ds, posts = map JsonObject ds /\
    out st' = out st ++ map (fun d => (Stdout, HistoryEntry d)) ds /\
    pending st' = pending st /\ done st' = done st /\
    Forall (fun d => exists s, dict_get "text" d = Some (JStr s)) ds.
Proof.
  induction posts as [|x posts IH]; simpl; intros st st' H.
  - injection H as <-. exists []. simpl. rewrite app_nil_r. auto.
  - destruct (history_entry x) as [|m] eqn:Hm; [discriminate|].
    apply IH in H as (ds & -> & Ho & Hp & Hd & Ht).
    destruct x as [| |d]; simpl in Hm; try discriminate.
    destruct (dict_get "id" d); [|discriminate].
    destruct (dict_get "text" d) as [[| | |t]|] eqn:Htext; try discriminate.
    injection Hm as <-. exists (d :: ds). simpl in *.
    rewrite <- app_assoc in Ho. repeat split; eauto.
Qed.

Lemma history_listed_entries ds :
  history_listed (map (fun d => (Stdout, HistoryEntry d)) ds) = ds.
Proof. induction ds as [|d ds IH]; simpl; [reflexivity|now rewrite IH]. Qed.

Lemma map_JsonObject_inj ds ds' :
  map JsonObject ds = map JsonObject ds' -> ds = ds'.
Proof.
  revert ds'. induction ds as [|d ds IH]; intros [|d' ds']; simpl;
    try discriminate; [reflexivity|].
  intros [= -> H]. f_equal. now apply IH.
Qed.

End Archive.

(** A run of [history] that returns: what it printed. *)
Lemma cmd_history_shown (P : Platform) (st st' : state P) (dir : directory) :
  done st = Some dir ->
  cmd_history st = Returned tt st' ->
  exists shown,
    out st' = out st ++ shown /\
    Permutation (history_listed shown) (records dir) /\
    List.length (records dir) = List.length (glob_json dir) /\
    Sorted history_ge (history_listed shown) /\
    (glob_json dir = [] -> shown = [(Stdout, NoHistory)]) /\
    pending st' = pending st /\ done st' = done st.
Proof.
  intros Hd. unfold cmd_history. rewrite Hd.
  destruct (load_all dir (glob_json dir)) as [|posts] eqn:Hload; [discriminate|].
  apply load_all_lookup in Hload.
  destruct posts as [|x posts].
  - intros [= <-]. exists [(Stdout, NoHistory)].
    inversion Hload as [Hnames|]. unfold records. rewrite <- Hnames. simpl.
    repeat split; auto; constructor.
  - set (all := x :: posts) in *.
    destruct (sort_posts_reverse posted_at_key all) as [|sorted] eqn:Hsort;
      [discriminate|].
    pose proof (sort_posts_reverse_sorted _ _ _ Hsort) as Hsorted.
    apply sort_posts_reverse_spec in Hsort as [Hperm _].
    intros (ds & -> & Ho & Hp & Hdn & _)%print_history_out.
    exists ((Stdout, HistoryHeader (List.length (map JsonObject ds)))
              :: map (fun d => (Stdout, HistoryEntry d)) ds).
    simpl in Ho. rewrite <- app_assoc in Ho. simpl in Ho.
    simpl. rewrite history_listed_entries.
    apply Permutation_sym, Permutation_map_inv in Hperm as (ds0 & Hall & Hperm).
    assert (Hrec : records dir = ds0).
    { apply records_of_lookup. now rewrite <- Hall. }
    split; [exact Ho|]. split; [now rewrite Hrec|].
    split.
    { rewrite Hrec. apply Forall2_length in Hload. rewrite Hload, Hall.
      now rewrite length_map. }
    split.
    { clear -Hsorted. remember (map JsonObject ds) as xs eqn:Hxs.
      revert ds Hxs. induction Hsorted as [|x l Hl IH Hhd]; intros [|d ds] Hxs;
        try discriminate; [constructor|].
      injection Hxs as -> ->. constructor; [now apply IH|].
      destruct ds as [|d' ds]; constructor.
      inversion Hhd as [|? ? Hr]; subst. exact Hr. }
    split.
    { intros Hnil. rewrite Hnil in Hload. inversion Hload. }
    split; [exact Hp|]. rewrite Hdn. exact Hd.
Qed.

Section HistoryRuns.

Context {P : Platform}.

Implicit Types (st : state P) (dir : directory).

Lemma lookup_Forall dir names posts (Q : file -> Prop) :
  Forall2 (fun f x => dir !! f = Some x) names posts ->
  (forall f x, f ∈ names -> dir !! f = Some x -> Q x) ->
  Forall Q posts.
Proof.
  induction 1 as [|f x names posts Hf _ IH]; intros H; constructor.
  - apply (H f x); [left|assumption].
  - apply IH. intros g y Hg. apply H. now right.
Qed.

Lemma load_all_total dir names :
  (forall f, f ∈ names -> exists d, dir !! f = Some (JsonObject d)) ->
  exists posts, load_all dir names = inr posts.
Proof.
  induction names as [|f rest IH]; intros H; simpl; [eauto|].
  destruct (H f) as [d ->]; [left|].
  destruct IH as [posts ->]; [|eauto].
  intros g Hg. apply H. now right.
Qed.

Lemma print_history_total posts : forall st,
  Forall (fun x => history_readable x = true) posts ->
  exists st', print_history posts st = Returned tt st'.
Proof.
  induction posts as [|x posts IH]; intros st H; simpl; [eauto|].
  inversion H as [|? ? Hx Hrest]; subst.
  destruct x as [| |d]; try discriminate. simpl in *.
  destruct (dict_get "scheduled_at" d); [|discriminate].
  destruct (dict_get "id" d); [|discriminate].
  destruct (dict_get "text" d) as [[| | |t]|]; try discriminate.
  now apply IH.
Qed.

Lemma cmd_history_total st dir :
  done st = Some dir ->
  every_file history_showable dir = true ->
  exists st', cmd_history st = Returned tt st'.
Proof.
  intros Hd Hok. pose proof (proj1 (every_file_spec _ _) Hok) as Hall.
  unfold cmd_history. rewrite Hd.
  destruct (load_all_total dir (glob_json dir)) as [posts Hload].
  { intros f [Hj [x Hx]]%glob_json_elem. specialize (Hall f x Hj Hx).
    destruct x; try discriminate. eauto. }
  rewrite Hload. apply load_all_lookup in Hload.
  assert (Hgood : Forall (fun x => history_showable x = true) posts).
  { apply (lookup_Forall dir (glob_json dir)); [assumption|].
    intros f x [Hj _]%glob_json_elem Hx. now apply (Hall f x). }
  destruct posts as [|p posts]; [eauto|].
  set (all := p :: posts) in *. clearbody all.
  unfold sort_posts_reverse.
  destruct (with_keys_total posted_at_key all) as [ks Hks].
  { eapply Forall_impl; [exact Hgood|]. intros x Hx. simpl in Hx.
    unfold history_showable in Hx. apply andb_true_iff in Hx as [_ Hx].
    destruct (posted_at_key x); [discriminate|eauto]. }
  rewrite Hks. pose proof (with_keys_spec _ _ _ Hks) as [Hm Hkeys].
  destruct (sort_keyed_text (rev ks)) as [s Hs].
  { apply Forall_forall. intros [k x] Hin.
    apply list_elem_of_In in Hin. apply in_rev in Hin. apply list_elem_of_In in Hin.
    pose proof (proj1 (Forall_forall _ _) Hkeys _ Hin) as Hk. simpl in Hk.
    assert (Hx : x ∈ all).
    { rewrite <- Hm. apply list_elem_of_fmap. now exists (k, x). }
    pose proof (proj1 (Forall_forall _ _) Hgood _ Hx) as Hg. simpl in Hg.
    unfold history_showable in Hg. apply andb_true_iff in Hg as [_ Hg].
    rewrite Hk in Hg. destruct k as [| | |t]; try discriminate. now exists t. }
  rewrite Hs. apply print_history_total.
  apply sort_keyed_perm in Hs.
  assert (Hperm : Permutation (map snd (rev s)) all).
  { rewrite <- Hm. apply Permutation_map.
    rewrite <- Permutation_rev, Hs. symmetry. apply Permutation_rev. }
  rewrite Hperm. eapply Forall_impl; [exact Hgood|].
  intros x Hx. simpl in Hx. unfold history_showable in Hx.
  now apply andb_true_iff in Hx as [? _].
Qed.

Lemma records_elem dir d :
  d ∈ records dir <->
  exists f, json_name f = true /\ dir !! f = Some (JsonObject d).
Proof.
  unfold records. rewrite list_elem_of_In, in_flat_map. split.
  - intros (f & Hf & Hd). apply list_elem_of_In, glob_json_elem in Hf as [Hj _].
    exists f. split; [assumption|].
    destruct (dir !! f) as [[| |d']|]; try now destruct Hd.
    destruct Hd as [->|[]]. reflexivity.
  - intros (f & Hj & Hf). exists f. split.
    + apply list_elem_of_In, glob_json_elem. eauto.
    + rewrite Hf. now left.
Qed.

End HistoryRuns.

(** X2. [history] on a project without the archive prints that there is
    nothing and returns. Whenever it returns on an archive it has printed
    the objects of the [*.json] files of the archive, one entry for each
    file, in an order in which the sort key, [posted_at] or else
    [scheduled_at], never increases; an archive without such files gives
    the line that there is nothing; the directories stay as they were. It
    returns on every archive whose files are records with an [id], a text
    and a string for the sort key. *)
Theorem history_shows_the_archive_latest_first (P : Platform) (st : state P) :
  (done st = None -> cmd_history st = Returned tt (print Stdout NoHistory st)) /\
  (forall dir st', done st = Some dir -> cmd_history st = Returned tt st' ->
     exists shown,
       out st' = out st ++ shown /\
       Permutation (history_listed shown) (records dir) /\
       List.length (history_listed shown) = List.length (glob_json dir) /\
       Sorted history_ge (history_listed shown) /\
       (glob_json dir = [] -> shown = [(Stdout, NoHistory)]) /\
       pending st' = pending st /\ done st' = done st) /\
  (forall dir, done st = Some dir -> every_file history_showable dir = true ->
     exists st', cmd_history st = Returned tt st').
Proof.
  split; [|split].
  - intros Hd. unfold cmd_history. now rewrite Hd.
  - intros dir st' Hd Hrun.
    destruct (cmd_history_shown P st st' dir Hd Hrun)
      as (shown & Ho & Hperm & Hlen & Hsorted & Hnil & Hp & Hdn).
    exists shown. split; [exact Ho|]. split; [exact Hperm|].
    split; [now rewrite Hperm|]. auto.
  - intros dir Hd Hok. now apply (cmd_history_total st dir).
Qed.

(** X15. Every file a run of [post-due] called [post_to_x] for is in the
    archive with a terminal status when the run returns, and a [history]
    that returns after it shows that record. *)
Theorem history_shows_what_post_due_archived (P : Platform)
    (st st1 st2 : state P) (dir : directory) :
  pending st = Some dir ->
  cmd_post_due st = Returned tt st1 ->
  cmd_history st1 = Returned tt st2 ->
  exists new shown,
    calls st1 = calls st ++ new /\
    out st2 = out st1 ++ shown /\
    forall f, f ∈ map fst new ->
      exists d, done_file st1 f = Some (JsonObject d) /\ terminal d = true /\
                d ∈ history_listed shown.
Proof.
  intros Hp Hrun Hhist. rewrite (cmd_post_due_unfold st dir Hp) in Hrun.
  set (now := PyTime.utc (fst (clock P (env st)))) in *.
  set (st0 := set_env _ _) in Hrun.
  destruct (post_due_loop now (glob_json dir) 0 st0) as [n st'|] eqn:Hloop;
    [|discriminate].
  injection Hrun as <-.
  destruct (post_due_loop_returned _ _ _ _ _ _ (glob_json_NoDup dir) Hloop)
    as (_ & _ & (new & Hc & Hm & _) & Hdue & _).
  destruct (post_due_loop_dirs now (glob_json dir) st0 0%nat) as [_ Hdirs].
  rewrite Hloop in Hdirs. simpl in Hdirs.
  destruct Hdirs as [ddir Hddir]; [unfold st0; simpl; eauto|].
  destruct (cmd_history_shown P (print Stdout (Completed n) st') st2 ddir
              Hddir Hhist) as (shown & Ho & Hperm & _).
  exists new, shown. split; [exact Hc|]. split; [exact Ho|].
  intros f Hf. rewrite Hm in Hf.
  destruct (Hdue f Hf) as (_ & d & Hd & Hterm).
  exists d. split; [exact Hd|]. split; [exact Hterm|].
  rewrite Hperm. apply records_elem. exists f.
  apply due_names_elem in Hf as [[Hj _]%glob_json_elem _].
  split; [exact Hj|]. unfold done_file in Hd. rewrite Hddir in Hd. exact Hd.
Qed.

Section Publishing.

Context {P : Platform}.

Implicit Types (st : state P) (now : PyTime.datetime) (f g : string).

Lemma post_to_x_returns data (w w' : world P) result :
  post_to_x P data w = (inr result, w') ->
  exists text response id t,
    tweepy_installed P = true /\ has_credentials P = true /\
    dict_get "text" data = Some text /\
    create_tweet P (kwargs text data) w = (inr response, w') /\
    dict_get "id" response = Some id /\
    dict_get "text" response = Some t /\
    result = [ ("success", JBool true); ("tweet_id", id); ("text", t);
               ("url", JStr ("https://x.com/i/status/" +:+ py_str id)) ].
Proof.
  unfold post_to_x.
  destruct (tweepy_installed P); [|discriminate].
  destruct (has_credentials P); [|discriminate]. simpl.
  destruct (dict_get "text" data) as [text|]; [|discriminate].
  destruct (create_tweet P (kwargs text data) w) as [[msg|response] w1] eqn:Hc;
    simpl; [discriminate|].
  destruct (dict_get "id" response) as [id|] eqn:Hid; [|discriminate].
  destruct (dict_get "text" response) as [t|] eqn:Ht; [|discriminate].
  intros [= <- <-]. exists text, response, id, t. auto 10.
Qed.

Lemma publish_out f data id st :
  out (publish f data id st)
  = out st ++ [(Stdout, Posting id); result_line (fst (post_to_x P data (env st)))].
Proof.
  unfold publish. simpl.
  destruct (post_to_x P data (env st)) as [r w]. simpl.
  destruct (clock P w) as [t w']. simpl.
  destruct r; simpl; now rewrite <- app_assoc.
Qed.

Lemma examine_due now st f data t id :
  pending_file st f = Some (JsonObject data) ->
  is_pending data = true ->
  scheduled_instant P data = Some t ->
  t <= PyTime.instant now ->
  dict_get "id" data = Some id ->
  examine P now (pending_file st f) = Publish data id.
Proof.
  intros Hf Hpend Ht Hle Hid.
  rewrite Hf, (examine_pending now data t Hpend Ht), Hid.
  now destruct (Z.ltb_spec (PyTime.instant now) t); [lia|].
Qed.

Lemma post_due_loop_app now l1 l2 : forall st count,
  post_due_loop now (l1 ++ l2) count st
  = match post_due_loop now l1 count st with
    | Raised e st' => Raised e st'
    | Returned n st' => post_due_loop now l2 n st'
    end.
Proof.
  induction l1 as [|f l1 IH]; intros st count; simpl; [reflexivity|].
  destruct (process_file now f st) as [counted st1|e st1]; [apply IH|reflexivity].
Qed.

Lemma post_due_loop_trace now names : forall st count n st',
  post_due_loop now names count st = Returned n st' ->
  exists shown, out st' = out st ++ shown /\
                (List.length shown + 2 * count = 2 * n)%nat.
Proof.
  induction names as [|f rest IH]; intros st count n st'; simpl.
  - intros [= <- <-]. exists []. rewrite app_nil_r. split; [reflexivity|simpl; lia].
  - rewrite process_file_examine.
    destruct (examine P now (pending_file st f)) as [|data id|e];
      [apply IH| |discriminate].
    intros (shown & Ho & Hn)%IH. rewrite publish_out, <- app_assoc in Ho.
    eexists. split; [exact Ho|]. simpl. lia.
Qed.

(** A file that is not in the list, or that the loop does not publish,
    stays as it is in both directories, however the loop ends. *)
Lemma post_due_loop_untouched now names : forall st count f,
  f ∉ names \/ is_due P now (pending_file st f) = false ->
  pending_file (final (post_due_loop now names count st)) f = pending_file st f /\
  done_file (final (post_due_loop now names count st)) f = done_file st f.
Proof.
  induction names as [|g rest IH]; intros st count f Hf; simpl; [now split|].
  rewrite process_file_examine.
  destruct (examine P now (pending_file st g)) as [|data id|e] eqn:Hex; simpl.
  - apply IH. destruct Hf as [Hf|Hf]; [left|now right].
    intros Hin. apply Hf. now right.
  - assert (Hne : f <> g).
    { intros ->. destruct Hf as [Hf|Hf]; [apply Hf; left|].
      unfold is_due in Hf. now rewrite Hex in Hf. }
    assert (Hp : pending_file (publish g data id st) f = pending_file st f).
    { rewrite publish_pending_file. now destruct (decide (f = g)). }
    assert (Hd : done_file (publish g data id st) f = done_file st f).
    { rewrite publish_done_file. now destruct (decide (f = g)). }
    rewrite <- Hp, <- Hd. apply IH.
    destruct Hf as [Hf|Hf]; [left|right; now rewrite Hp].
    intros Hin. apply Hf. now right.
  - now split.
Qed.

End Publishing.

(** X3. When the call of [post_to_x] for a due post returns, the client
    was called with the text of the post, and the record goes to the
    archive with status posted, [posted_at] set to the clock reading taken
    after the call, [tweet_id] set to the id the client answered and
    [tweet_url] to the status address of that id; every other field of the
    record is kept, the pending file is removed and the loop goes on with
    the files that remain. *)
Theorem successful_publish_is_archived (P : Platform) (now : PyTime.datetime)
    (st : state P) (f : string) (rest : list string) (count : nat)
    (data : dict) (t : Z) (result : dict) (w : world P) :
  pending_file st f = Some (JsonObject data) ->
  is_pending data = true ->
  scheduled_instant P data = Some t ->
  t <= PyTime.instant now ->
  is_Some (dict_get "id" data) ->
  post_to_x P data (env st) = (inr result, w) ->
  exists st' archived text response id,
    post_due_loop now (f :: rest) count st
    = post_due_loop now rest (S count) st' /\
    done_file st' f = Some (JsonObject archived) /\
    pending_file st' f = None /\
    dict_get "text" data = Some text /\
    create_tweet P (kwargs text data) (env st) = (inr response, w) /\
    dict_get "id" response = Some id /\
    dict_get "status" archived = Some (JStr "posted") /\
    dict_get "posted_at" archived
    = Some (JStr (PyTime.isoformat (PyTime.utc (fst (clock P w))))) /\
    dict_get "tweet_id" archived = Some id /\
    dict_get "tweet_url" archived
    = Some (JStr ("https://x.com/i/status/" +:+ py_str id)) /\
    (forall k, k ∉ outcome_keys -> dict_get k archived = dict_get k data).
Proof.
  intros Hf Hpend Ht Hle [pid Hid] Hpost.
  destruct (post_to_x_returns _ _ _ _ Hpost)
    as (text & response & id & rt & _ & _ & Htext & Hc & Hrid & _ & ->).
  set (result := [ ("success", JBool true); ("tweet_id", id); ("text", rt);
                   ("url", JStr ("https://x.com/i/status/" +:+ py_str id)) ]) in *.
  exists (publish f data pid st).
  exists (mark_posted (PyTime.isoformat (PyTime.utc (fst (clock P w)))) result data).
  exists text, response, id.
  pose proof (examine_due now st f data t pid Hf Hpend Ht Hle Hid) as Hex.
  split; [simpl; now rewrite process_file_examine, Hex|].
  split.
  { rewrite publish_done_file. destruct (decide (f = f)); [|congruence].
    unfold archived_by. now rewrite Hpost. }
  split; [rewrite publish_pending_file; now destruct (decide (f = f))|].
  do 3 (split; [assumption|]).
  unfold mark_posted. simpl default. repeat split.
  - rewrite !dict_get_set_ne by discriminate. apply dict_get_set_eq.
  - rewrite !dict_get_set_ne by discriminate. apply dict_get_set_eq.
  - rewrite dict_get_set_ne by discriminate. apply dict_get_set_eq.
  - apply dict_get_set_eq.
  - intros k Hk. unfold outcome_keys in Hk.
    rewrite !not_elem_of_cons in Hk. destruct Hk as (H1 & H2 & H3 & H4 & _).
    now rewrite !dict_get_set_ne by congruence.
Qed.

(** X4. The count [post-due] reports is the number of calls of [post_to_x]
    it made, failed ones included: one call for a file, two lines printed
    for each call and then the count. The files called for are the files
    that left the pending directory, and each is in the archive with a
    terminal status. *)
Theorem post_due_counts_every_call (P : Platform) (st st' : state P)
    (dir : directory) :
  pending st = Some dir ->
  cmd_post_due st = Returned tt st' ->
  exists new shown,
    calls st' = calls st ++ new /\
    NoDup (map fst new) /\
    out st' = out st ++ shown ++ [(Stdout, Completed (List.length new))] /\
    List.length shown = (2 * List.length new)%nat /\
    (forall f, f ∈ map fst new <->
       is_Some (dir !! f) /\ pending_file st' f = None) /\
    (forall f, f ∈ map fst new ->
       exists d, done_file st' f = Some (JsonObject d) /\ terminal d = true).
Proof.
  intros Hp Hrun. rewrite (cmd_post_due_unfold st dir Hp) in Hrun.
  set (now := PyTime.utc (fst (clock P (env st)))) in *.
  set (st0 := set_env _ _) in Hrun.
  destruct (post_due_loop now (glob_json dir) 0 st0) as [n st1|] eqn:Hloop;
    [|discriminate].
  injection Hrun as <-.
  destruct (post_due_loop_trace _ _ _ _ _ _ Hloop) as (shown & Ho & Hlen).
  destruct (post_due_loop_returned _ _ _ _ _ _ (glob_json_NoDup dir) Hloop)
    as (_ & Hn & (new & Hc & Hm & _) & Hdue & Hrest).
  assert (Hcount : n = List.length new).
  { rewrite Hn, <- Hm, length_map. reflexivity. }
  assert (Hfile : forall g, pending_file st0 g = dir !! g).
  { intros g. unfold pending_file, st0. simpl. now rewrite Hp. }
  exists new, shown. rewrite Hm. repeat split.
  - exact Hc.
  - unfold due_names.
    apply NoDup_ListNoDup, List.NoDup_filter, NoDup_ListNoDup, glob_json_NoDup.
  - simpl. rewrite Ho, Hcount, <- app_assoc. reflexivity.
  - lia.
  - apply due_names_elem in H as [[_ Hin]%glob_json_elem _]. exact Hin.
  - change (pending_file st1 f = None). now apply Hdue.
  - intros [Hin Hnone]. change (pending_file st1 f = None) in Hnone.
    destruct (decide (f ∈ due_names now st0 (glob_json dir))) as [|Hnot];
      [assumption|].
    destruct (Hrest f Hnot) as [Hsame _]. rewrite Hsame, Hfile in Hnone.
    rewrite Hnone in Hin. now destruct Hin.
  - intros f Hf. change (exists d, done_file st1 f = Some (JsonObject d)
                                   /\ terminal d = true).
    now apply Hdue.
Qed.

(** X5. However a run of [post-due] ends, a file whose name does not fit
    [*.json] or begins with [._], and a file the run does not publish, a
    record with another status or one scheduled later, is afterwards what
    it was before, in the pending directory and in the archive. *)
Theorem post_due_touches_only_what_it_publishes (P : Platform) (st : state P)
    (f : string) :
  json_name f = false \/
  is_due P (PyTime.utc (fst (clock P (env st)))) (pending_file st f) = false ->
  pending_file (final (cmd_post_due st)) f = pending_file st f /\
  done_file (final (cmd_post_due st)) f = done_file st f.
Proof.
  intros Hf. destruct (pending st) as [dir|] eqn:Hp.
  - rewrite (cmd_post_due_unfold st dir Hp).
    set (now := PyTime.utc (fst (clock P (env st)))) in *.
    set (st0 := set_env _ _).
    destruct (loop_start_files st (snd (clock P (env st)))) as [Hp0 Hd0].
    fold st0 in Hp0, Hd0.
    destruct (post_due_loop_untouched now (glob_json dir) st0 0%nat f) as [H1 H2].
    { destruct Hf as [Hf|Hf]; [left|right; now rewrite Hp0].
      intros [Hj _]%glob_json_elem. congruence. }
    rewrite Hp0 in H1. rewrite Hd0 in H2.
    destruct (post_due_loop now (glob_json dir) 0 st0); simpl in *; now split.
  - unfold cmd_post_due. rewrite Hp. simpl. now split.
Qed.

(** X6. [post_to_x] sends nothing before its checks pass: without the
    client library it raises a [RuntimeError], with one of the four
    credentials unset or empty a [ValueError], and for a record without
    [text] a [KeyError], the surroundings left as they were each time. A
    call that changed them had the library, all four credentials and a
    text. *)
Theorem post_to_x_checks_before_it_sends (P : Platform) (data : dict)
    (w : world P) :
  (tweepy_installed P = false ->
   post_to_x P data w = (inl (PRuntimeError tweepy_missing), w)) /\
  (tweepy_installed P = true ->
   (exists k, k ∈ credential_names /\ unset P k = true) ->
   post_to_x P data w = (inl (PValueError credentials_missing), w)) /\
  (tweepy_installed P = true ->
   (forall k, k ∈ credential_names -> unset P k = false) ->
   dict_get "text" data = None ->
   post_to_x P data w = (inl (PKeyError "text"), w)) /\
  (forall r w', post_to_x P data w = (r, w') -> w' <> w ->
     tweepy_installed P = true /\
     (forall k, k ∈ credential_names -> unset P k = false) /\
     is_Some (dict_get "text" data)).
Proof.
  assert (Hcred : has_credentials P = true <->
                  forall k, k ∈ credential_names -> unset P k = false).
  { unfold has_credentials. rewrite forallb_forall. unfold unset.
    split; intros H k Hk.
    - apply list_elem_of_In, H in Hk. destruct (getenv P k); [|discriminate].
      now apply negb_true_iff.
    - apply list_elem_of_In, H in Hk. destruct (getenv P k); [|discriminate].
      now apply negb_true_iff. }
  unfold post_to_x. repeat split.
  - now intros ->.
  - intros -> (k & Hk & Hu). simpl.
    destruct (has_credentials P) eqn:Hc; [|reflexivity].
    rewrite (proj1 Hcred eq_refl k Hk) in Hu. discriminate.
  - intros -> Hall ->. now rewrite (proj2 Hcred Hall).
  - destruct (tweepy_installed P); [reflexivity|].
    simpl in H. injection H as _ <-. contradiction.
  - destruct (tweepy_installed P); simpl in H; [|injection H as _ <-; contradiction].
    destruct (has_credentials P) eqn:Hc; simpl in H;
      [|injection H as _ <-; contradiction].
    now apply Hcred.
  - destruct (tweepy_installed P); simpl in H; [|injection H as _ <-; contradiction].
    destruct (has_credentials P) eqn:Hc; simpl in H;
      [|injection H as _ <-; contradiction].
    destruct (dict_get "text" data); [eauto|injection H as _ <-; contradiction].
Qed.

Section Blocked.

Context {P : Platform}.

Implicit Types (st : state P) (now : PyTime.datetime) (f g : string).

Lemma post_due_loop_blocked now before f after e : forall st count,
  NoDup (before ++ f :: after) ->
  (forall g e', g ∈ before -> examine P now (pending_file st g) <> Fail e') ->
  examine P now (pending_file st f) = Fail e ->
  exists st' new,
    post_due_loop now (before ++ f :: after) count st = Raised e st' /\
    calls st' = calls st ++ new /\
    map fst new = due_names now st before /\
    (forall g, g ∈ f :: after ->
       pending_file st' g = pending_file st g /\
       done_file st' g = done_file st g).
Proof.
  intros st count Hnd Hok Hex.
  apply NoDup_app in Hnd as (Hnd1 & Hdisj & Hnd2).
  destruct (post_due_loop_total now before st count Hnd1 Hok) as (n & st1 & Hrun).
  destruct (post_due_loop_returned _ _ _ _ _ _ Hnd1 Hrun)
    as (_ & _ & (new & Hc & Hm & _) & _ & Hrest).
  assert (Hlater : forall g, g ∈ f :: after ->
            pending_file st1 g = pending_file st g /\
            done_file st1 g = done_file st g).
  { intros g Hg. apply Hrest. intros [Hin _]%due_names_elem.
    exact (Hdisj g Hin Hg). }
  exists st1, new. rewrite post_due_loop_app, Hrun. simpl.
  rewrite process_file_examine.
  destruct (Hlater f) as [-> _]; [left|]. rewrite Hex. auto.
Qed.

End Blocked.

(** X7. A file of the pending directory that [post-due] cannot read stops
    the run with the error of that file: the files that sort before it are
    dealt with, the due ones among them published, and no file from it
    onwards is touched, in either directory. *)
Theorem unreadable_file_blocks_the_files_after_it (P : Platform) (st : state P)
    (dir : directory) (before after : list string) (f : string) (e : exn) :
  pending st = Some dir ->
  glob_json dir = before ++ f :: after ->
  let now := PyTime.utc (fst (clock P (env st))) in
  (forall g e', g ∈ before -> examine P now (dir !! g) <> Fail e') ->
  examine P now (dir !! f) = Fail e ->
  exists st' new,
    cmd_post_due st = Raised e st' /\
    calls st' = calls st ++ new /\
    (forall g, g ∈ map fst new <-> g ∈ before /\ is_due P now (dir !! g) = true) /\
    (forall g, g ∈ f :: after ->
       pending_file st' g = dir !! g /\ done_file st' g = done_file st g).
Proof.
  intros Hp Hglob now Hok Hex.
  rewrite (cmd_post_due_unfold st dir Hp). fold now.
  set (st0 := set_env _ _).
  destruct (loop_start_files st (snd (clock P (env st)))) as [Hp0 Hd0].
  fold st0 in Hp0, Hd0.
  assert (Hfile : forall g, pending_file st0 g = dir !! g).
  { intros g. rewrite Hp0. unfold pending_file. now rewrite Hp. }
  destruct (post_due_loop_blocked now before f after e st0 0%nat)
    as (st' & new & Hrun & Hc & Hm & Hlater).
  - rewrite <- Hglob. apply glob_json_NoDup.
  - intros g e' Hg. rewrite Hfile. now apply Hok.
  - now rewrite Hfile.
  - exists st', new. rewrite Hglob, Hrun. repeat split.
    + exact Hc.
    + rewrite Hm in H. now apply due_names_elem in H as [? _].
    + rewrite Hm in H. apply due_names_elem in H as [_ H]. now rewrite <- Hfile.
    + intros [Hin Hdue]. rewrite Hm. apply due_names_elem. now rewrite Hfile.
    + destruct (Hlater g H) as [-> _]. apply Hfile.
    + destruct (Hlater g H) as [_ ->]. apply Hd0.
Qed.

Lemma string_length_append (a b : string) :
  String.length (a +:+ b) = (String.length a + String.length b)%nat.
Proof.
  induction a as [|c a IH]; [reflexivity|].
  change (S (String.length (a +:+ b)) = S (String.length a + String.length b)).
  now rewrite IH.
Qed.

Lemma substring_past_prefix (a b : string) m :
  substring (String.length a) m (a +:+ b) = substring 0 m b.
Proof. induction a as [|c a IH]; [reflexivity|exact IH]. Qed.

Lemma ends_with_append (a b : string) : ends_with b (a +:+ b) = true.
Proof.
  unfold ends_with. rewrite string_length_append.
  apply andb_true_iff. split; [apply Nat.leb_le; lia|].
  replace (String.length a + String.length b - String.length b)%nat
    with (String.length a) by lia.
  rewrite substring_past_prefix. apply String.eqb_eq.
  clear a. induction b as [|c b IH]; [reflexivity|].
  simpl. f_equal. exact IH.
Qed.

Lemma starts_with_digit_append (a b : string) :
  starts_with_digit a = true -> starts_with_digit (a +:+ b) = true.
Proof. now destruct a. Qed.

Lemma starts_with_digit_no_dot (s : string) :
  starts_with_digit s = true -> String.prefix "._" s = false.
Proof.
  destruct s as [|c s]; [discriminate|]. unfold starts_with_digit. intros H.
  destruct c as [[|] [|] [|] [|] [|] [|] [|] [|]]; try reflexivity; discriminate H.
Qed.

Lemma json_name_generated scheduled local_now :
  json_name (generate_post_id scheduled local_now +:+ ".json") = true.
Proof.
  unfold json_name. rewrite ends_with_append, starts_with_digit_no_dot; [reflexivity|].
  unfold generate_post_id. cbv zeta.
  do 2 apply starts_with_digit_append.
  unfold PyTime.strftime_compact, PyTime.dec4.
  apply starts_with_digit_append. apply is_digit_digit.
Qed.

Section AddRuns.

Context {P : Platform}.

Implicit Types (st : state P) (args : add_args).

(** An [add] whose zone is known and whose date and time parse. *)
Lemma cmd_add_parsed args st tz scheduled :
  ZoneInfo P (arg_timezone args) = Some tz ->
  parse_scheduled P (arg_datetime args) = Some scheduled ->
  let t := fst (clock P (env st)) in
  let w := snd (clock P (env st)) in
  let now_wall := zone_fromutc tz t in
  let scheduled_at := PyTime.DateTime scheduled (Some (zone_utcoffset tz scheduled)) in
  let post_id := generate_post_id scheduled (localtime P (fst (clock P w))) in
  let post :=
    [ ("id", JStr post_id);
      ("text", JStr (arg_text args));
      ("scheduled_at", JStr (PyTime.isoformat scheduled_at));
      ("created_at",
       JStr (PyTime.isoformat
               (PyTime.DateTime now_wall (Some (zone_utcoffset tz now_wall)))));
      ("status", JStr "pending");
      ("label", JStr (label_or_empty (arg_label args)));
      ("reply_to", opt_str (arg_reply_to args));
      ("quote_tweet_id", opt_str (arg_quote args)) ] in
  cmd_add args st
  = Returned post
      (State (Some (<[post_id +:+ ".json" := JsonObject post]>
                      (default ∅ (pending st))))
             (done st) (snd (clock P w))
             (out st
              ++ (if PyTime.wall_le scheduled now_wall
                  then past_warning scheduled_at else [])
              ++ [(Stdout, Added post)])
             (calls st)).
Proof.
  unfold parse_scheduled, cmd_add. intros Hz Hparse. cbv zeta.
  rewrite Hz, Hparse. cbn [env set_pending].
  destruct (clock P (env st)) as [t w]. cbn [fst snd].
  destruct (PyTime.wall_le scheduled (zone_fromutc tz t));
    unfold print, set_env, set_pending; cbn [env done out calls pending];
    destruct (clock P w) as [t' w']; cbn [fst snd env done out calls pending];
    unfold past_warning; rewrite <- ?app_assoc; reflexivity.
Qed.

End AddRuns.


(** X9. [cancel] with the id [add] returned removes the file [add] wrote:
    afterwards every other file of the pending directory is what it was
    before the [add], no file has the name of the id, and the archive is
    unchanged. *)
Theorem cancel_undoes_add (P : Platform) (st st1 : state P) (args : add_args)
    (post : dict) (post_id : string) :
  cmd_add args st = Returned post st1 ->
  dict_get "id" post = Some (JStr post_id) ->
  pending_file st1 (post_id +:+ ".json") = Some (JsonObject post) /\
  exists st2,
    cmd_cancel post_id st1 = Returned tt st2 /\
    (forall f, pending_file st2 f
               = if decide (f = post_id +:+ ".json") then None else pending_file st f) /\
    done st2 = done st /\
    out st2 = out st1 ++ [(Stdout, Cancelled post_id)].
Proof.
  intros (scheduled & local_now & _ & _ & Hid & _ & _ & Hp & Hd)%cmd_add_returned Hid'.
  assert (Heq : post_id = generate_post_id scheduled local_now) by congruence.
  rewrite <- Heq in Hp. clear Heq Hid.
  assert (Hfile : pending_file st1 (post_id +:+ ".json") = Some (JsonObject post)).
  { unfold pending_file. rewrite Hp. simpl. apply lookup_insert_eq. }
  split; [exact Hfile|].
  rewrite (cmd_cancel_found P st1 _ _ Hfile). eexists. split; [reflexivity|].
  split; [|split; [exact Hd|reflexivity]].
  intros f. rewrite pending_file_delete.
  destruct (decide (f = post_id +:+ ".json")) as [|Hne]; [reflexivity|].
  unfold pending_file. rewrite Hp. simpl.
  rewrite lookup_insert_ne by congruence.
  destruct (pending st); simpl; [reflexivity|apply lookup_empty].
Qed.

(** X10. After [add], on a pending directory [list] could read, [list]
    returns and shows the new post, provided [fromisoformat] reads the
    [scheduled_at] that [add] wrote; every other post it shows was pending
    before. The file name [add] chose ends in [.json] and begins with a
    digit, so the listing does not pass over it. *)
Theorem added_post_is_listed (P : Platform) (st st1 : state P) (args : add_args)
    (post : dict) :
  cmd_add args st = Returned post st1 ->
  every_file (listable P) (default ∅ (pending st)) = true ->
  (forall s, dict_get "scheduled_at" post = Some (JStr s) ->
             is_Some (fromisoformat P s)) ->
  exists st2 shown,
    cmd_list st1 = Returned tt st2 /\
    out st2 = out st1 ++ shown /\
    post ∈ listed shown /\
    forall q, q ∈ listed shown -> q <> post ->
      q ∈ pending_posts (default ∅ (pending st)).
Proof.
  intros Hadd Hold Hiso.
  destruct (cmd_add_returned _ _ _ _ Hadd)
    as (scheduled & local_now & [tz Hz] & Hparse & Hid & Htext & Hpend & Hp & _).
  pose proof (cmd_add_parsed args st tz scheduled Hz Hparse) as Hrun.
  cbv zeta in Hrun. rewrite Hrun in Hadd. injection Hadd as Hpost _.
  set (name := generate_post_id scheduled local_now +:+ ".json") in *.
  set (dir := <[name := JsonObject post]> (default ∅ (pending st))) in *.
  assert (Hname : json_name name = true) by apply json_name_generated.
  assert (Hnew : listable P (JsonObject post) = true).
  { unfold listable. rewrite Hpend. simpl negb. simpl orb.
    apply andb_true_iff. split.
    - rewrite <- Hpost. reflexivity.
    - unfold scheduled_instant.
      destruct (dict_get "scheduled_at" post) as [[| | |s]|] eqn:Hs;
        try (rewrite <- Hpost in Hs; discriminate).
      destruct (Hiso s eq_refl) as [d ->]. reflexivity. }
  assert (Hall : every_file (listable P) dir = true).
  { apply every_file_spec. intros f x Hj Hx. unfold dir in Hx.
    destruct (decide (f = name)) as [->|Hne].
    - rewrite lookup_insert_eq in Hx. now injection Hx as <-.
    - rewrite lookup_insert_ne in Hx by congruence.
      exact (proj1 (every_file_spec _ _) Hold f x Hj Hx). }
  destruct (cmd_list_total st1 dir Hp Hall) as [st2 Hlist].
  destruct (cmd_list_returned st1 dir st2 Hp Hlist)
    as (shown & Ho & Hperm & _).
  exists st2, shown. split; [exact Hlist|]. split; [exact Ho|].
  split.
  - rewrite Hperm. apply pending_posts_elem. exists name.
    split; [exact Hname|]. split; [apply lookup_insert_eq|exact Hpend].
  - intros q Hq Hne. rewrite Hperm in Hq.
    apply pending_posts_elem in Hq as (f & Hj & Hf & Hqp).
    apply pending_posts_elem. exists f. split; [exact Hj|]. split; [|exact Hqp].
    unfold dir in Hf. destruct (decide (f = name)) as [->|Hfn].
    + rewrite lookup_insert_eq in Hf. congruence.
    + now rewrite lookup_insert_ne in Hf by congruence.
Qed.

(** X11. After [cancel] of an id, a [list] that returns shows exactly the
    pending posts held by the other [*.json] files of the directory. *)
Theorem cancelled_post_is_not_listed (P : Platform) (st st1 st2 : state P)
    (dir : directory) (id : string) :
  pending st = Some dir ->
  cmd_cancel id st = Returned tt st1 ->
  cmd_list st1 = Returned tt st2 ->
  exists shown,
    out st2 = out st1 ++ shown /\
    forall p, p ∈ listed shown <->
      exists f, f <> id +:+ ".json" /\ json_name f = true /\
                dir !! f = Some (JsonObject p) /\ is_pending p = true.
Proof.
  intros Hp Hcancel Hlist.
  destruct (pending_file st (id +:+ ".json")) as [x|] eqn:Hx.
  - rewrite (cmd_cancel_found P st id x Hx) in Hcancel. injection Hcancel as <-.
    assert (Hp1 : pending (print Stdout (Cancelled id)
                    (set_pending (delete (id +:+ ".json") <$> pending st) st))
                  = Some (delete (id +:+ ".json") dir)).
    { simpl. now rewrite Hp. }
    destruct (cmd_list_returned _ _ _ Hp1 Hlist) as (shown & Ho & Hperm & _).
    exists shown. split; [exact Ho|]. intros p. rewrite Hperm, pending_posts_elem.
    split; intros (f & H).
    + destruct H as (Hj & Hf & Hpend).
      apply lookup_delete_Some in Hf as [Hne Hf]. exists f. auto.
    + destruct H as (Hne & Hj & Hf & Hpend). exists f.
      rewrite lookup_delete_ne by congruence. auto.
  - rewrite (cmd_cancel_missing P st id Hx) in Hcancel. discriminate.
Qed.

(** X12. A due pending record without a [text] is archived by
    [post-due] with status failed, whatever the reason [post_to_x] gives,
    and from then on [history] fails as a whole on that archive. *)
Theorem record_without_text_breaks_history (P : Platform)
    (now : PyTime.datetime) (st : state P) (f : string) (data : dict) (t : Z) :
  json_name f = true ->
  pending_file st f = Some (JsonObject data) ->
  is_pending data = true ->
  scheduled_instant P data = Some t ->
  t <= PyTime.instant now ->
  is_Some (dict_get "id" data) ->
  dict_get "text" data = None ->
  exists st' archived,
    process_file now f st = Returned true st' /\
    env st' = snd (clock P (env st)) /\
    done_file st' f = Some (JsonObject archived) /\
    dict_get "status" archived = Some (JStr "failed") /\
    raises (cmd_history st').
Proof.
  intros Hj Hf Hpend Ht Hle [id Hid] Htext.
  assert (Hex : examine P now (pending_file st f) = Publish data id).
  { rewrite Hf, (examine_pending now data t Hpend Ht), Hid.
    now destruct (Z.ltb_spec (PyTime.instant now) t); [lia|]. }
  assert (Hpost : exists e, post_to_x P data (env st) = (inl e, env st)).
  { unfold post_to_x. destruct (negb (tweepy_installed P)); [eauto|].
    destruct (negb (has_credentials P)); [eauto|]. rewrite Htext. eauto. }
  destruct Hpost as [e Hpost].
  set (archived := mark_failed
         (PyTime.isoformat (PyTime.utc (fst (clock P (env st))))) e data).
  assert (Harch : archived_by data st = archived).
  { unfold archived_by. now rewrite Hpost. }
  exists (publish f data id st), archived.
  rewrite process_file_examine, Hex. split; [reflexivity|].
  split.
  { unfold publish. cbn [env print]. rewrite Hpost. cbn [env set_env log_call].
    destruct (clock P (env st)) as [t0 w0]. reflexivity. }
  assert (Hdone : done_file (publish f data id st) f = Some (JsonObject archived)).
  { rewrite publish_done_file, Harch. now destruct (decide (f = f)). }
  split; [exact Hdone|]. split.
  { unfold archived, mark_failed.
    rewrite !dict_get_set_ne by discriminate. apply dict_get_set_eq. }
  apply not_returned_raises. intros [] st' Hrun.
  unfold done_file in Hdone.
  destruct (done (publish f data id st)) as [dir|] eqn:Hd; [|discriminate].
  simpl in Hdone.
  pose proof (cmd_history_returned _ _ _ Hd Hrun) as Hall.
  pose proof (proj1 (every_file_spec _ _) Hall f _ Hj Hdone) as Hread.
  unfold history_readable, archived, mark_failed in Hread.
  rewrite !(dict_get_set_ne "text") in Hread by discriminate.
  rewrite Htext in Hread.
  revert Hread.
  destruct (dict_get "scheduled_at" (dict_set _ _ _)); [|intros H; discriminate H].
  destruct (dict_get "id" (dict_set _ _ _)); intros H; discriminate H.
Qed.

(** ** The order of file names *)

Lemma ascii_compare_lt (a b : ascii) :
  Ascii.compare a b = Lt <-> (N_of_ascii a < N_of_ascii b)%N.
Proof. unfold Ascii.compare. apply N.compare_lt_iff. Qed.

Lemma string_compare_lt_trans (a b c : string) :
  String.compare a b = Lt -> String.compare b c = Lt -> String.compare a c = Lt.
Proof.
  revert b c. induction a as [|x a IH]; intros [|y b] [|z c]; simpl;
    try discriminate; try reflexivity.
  destruct (Ascii.compare x y) eqn:Hxy; [|clear IH|discriminate].
  - apply Ascii.compare_eq_iff in Hxy as ->.
    destruct (Ascii.compare y z); [apply IH|reflexivity|discriminate].
  - intros _. apply ascii_compare_lt in Hxy.
    destruct (Ascii.compare y z) eqn:Hyz; [|intros _|discriminate].
    + apply Ascii.compare_eq_iff in Hyz as <-. intros _.
      now rewrite (proj2 (ascii_compare_lt x y) Hxy).
    + apply ascii_compare_lt in Hyz.
      pose proof (N.lt_trans _ _ _ Hxy Hyz) as H.
      now rewrite (proj2 (ascii_compare_lt x z) H).
Qed.

Lemma string_leb_trans (a b c : string) :
  String.leb a b = true -> String.leb b c = true -> String.leb a c = true.
Proof.
  unfold String.leb. intros Hab Hbc.
  destruct (String.compare a b) eqn:Hc1; [| |discriminate].
  - apply String.compare_eq_iff in Hc1 as ->. exact Hbc.
  - destruct (String.compare b c) eqn:Hc2; [| |discriminate].
    + apply String.compare_eq_iff in Hc2 as <-. now rewrite Hc1.
    + now rewrite (string_compare_lt_trans a b c Hc1 Hc2).
Qed.

(** Two lists of distinct names in the order of [sorted] that hold the same
    names are one list. *)
Lemma sorted_names_unique (l l' : list string) :
  Sorted (fun a b => String.leb a b = true) l ->
  Sorted (fun a b => String.leb a b = true) l' ->
  NoDup l -> NoDup l' ->
  (forall x, x ∈ l <-> x ∈ l') ->
  l = l'.
Proof.
  intros Hl Hl'.
  apply Sorted_StronglySorted in Hl; [|intros a b c; apply string_leb_trans].
  apply Sorted_StronglySorted in Hl'; [|intros a b c; apply string_leb_trans].
  revert l' Hl'. induction Hl as [|a l Hl IH Ha]; intros l' Hl' Hnd Hnd' Hsame.
  - destruct l' as [|b l']; [reflexivity|].
    assert (Hin : b ∈ @nil string) by (apply Hsame; left). inversion Hin.
  - destruct Hl' as [|b l' Hl' Hb].
    { assert (Hin : a ∈ @nil string) by (apply Hsame; left). inversion Hin. }
    apply NoDup_cons in Hnd as [Hnin Hnd].
    apply NoDup_cons in Hnd' as [Hnin' Hnd'].
    assert (Hab : a = b).
    { assert (Hin : a ∈ b :: l') by (apply Hsame; left).
      assert (Hin' : b ∈ a :: l) by (apply Hsame; left).
      apply elem_of_cons in Hin as [|Hin]; [assumption|].
      apply elem_of_cons in Hin' as [|Hin']; [congruence|].
      apply String.leb_antisym.
      - exact (proj1 (Forall_forall _ _) Ha b Hin').
      - exact (proj1 (Forall_forall _ _) Hb a Hin). }
    subst b. f_equal. apply IH; try assumption.
    intros x. split; intros Hx.
    + assert (Hx' : x ∈ a :: l') by (apply Hsame; now right).
      apply elem_of_cons in Hx' as [->|]; [contradiction|assumption].
    + assert (Hx' : x ∈ a :: l) by (apply Hsame; now right).
      apply elem_of_cons in Hx' as [->|]; [contradiction|assumption].
Qed.

Lemma glob_json_agree (d d' : directory) :
  (forall f, json_name f = true -> d !! f = d' !! f) ->
  glob_json d = glob_json d'.
Proof.
  intros H. apply sorted_names_unique.
  - apply sort_names_sorted.
  - apply sort_names_sorted.
  - apply glob_json_NoDup.
  - apply glob_json_NoDup.
  - intros f. rewrite !glob_json_elem.
    split; intros [Hj Hf]; (split; [assumption|]);
      [rewrite <- (H f Hj)|rewrite (H f Hj)]; assumption.
Qed.

Lemma glob_json_empty : glob_json (∅ : directory) = [].
Proof.
  destruct (glob_json ∅) as [|f l] eqn:H; [reflexivity|].
  assert (Hin : f ∈ glob_json (∅ : directory)) by (rewrite H; left).
  apply glob_json_elem in Hin as [_ [x Hx]]. now rewrite lookup_empty in Hx.
Qed.

Section OtherFiles.

Context {P : Platform}.

Implicit Types (st : state P) (dir : directory).

Lemma load_pending_agree dir dir' names :
  (forall f, f ∈ names -> dir !! f = dir' !! f) ->
  load_pending dir names = load_pending dir' names.
Proof.
  induction names as [|f rest IH]; intros H; simpl; [reflexivity|].
  rewrite <- (H f) by left. rewrite IH; [reflexivity|].
  intros g Hg. apply H. now right.
Qed.

Lemma load_all_agree dir dir' names :
  (forall f, f ∈ names -> dir !! f = dir' !! f) ->
  load_all dir names = load_all dir' names.
Proof.
  induction names as [|f rest IH]; intros H; simpl; [reflexivity|].
  rewrite <- (H f) by left. rewrite IH; [reflexivity|].
  intros g Hg. apply H. now right.
Qed.

(** What a directory gives a listing: the objects of its [*.json] files,
    or the error of the first one that cannot be read. *)
Lemma listing_input_agree {A : Type}
    (load : directory -> list string -> result A) (o o' : option directory) :
  (forall dir dir' names,
     (forall f, f ∈ names -> dir !! f = dir' !! f) ->
     load dir names = load dir' names) ->
  (forall f, json_name f = true -> o ≫= (.!! f) = o' ≫= (.!! f)) ->
  load (default ∅ o) (glob_json (default ∅ o))
  = load (default ∅ o') (glob_json (default ∅ o')).
Proof.
  intros Hload H.
  assert (Hsame : forall f, json_name f = true ->
            default ∅ o !! f = default ∅ o' !! f).
  { intros f Hj. specialize (H f Hj).
    destruct o, o'; simpl in *; rewrite ?lookup_empty in *; congruence. }
  rewrite (glob_json_agree _ _ Hsame). apply Hload.
  intros f [Hj _]%glob_json_elem. now apply Hsame.
Qed.

Lemma print_entries_agree posts : forall st st',
  out st' = out st ->
  out (final (print_entries (list_entry P) posts st'))
  = out (final (print_entries (list_entry P) posts st)) /\
  raised (print_entries (list_entry P) posts st')
  = raised (print_entries (list_entry P) posts st).
Proof.
  induction posts as [|p posts IH]; intros st st' Ho; simpl; [now split|].
  destruct (list_entry P p) as [e|m]; simpl; [now split|].
  apply IH. simpl. now rewrite Ho.
Qed.

Lemma print_history_agree posts : forall st st',
  out st' = out st ->
  out (final (print_history posts st')) = out (final (print_history posts st)) /\
  raised (print_history posts st') = raised (print_history posts st).
Proof.
  induction posts as [|p posts IH]; intros st st' Ho; simpl; [now split|].
  destruct (history_entry p) as [e|m]; simpl; [now split|].
  apply IH. simpl. now rewrite Ho.
Qed.

Lemma cmd_list_default st :
  cmd_list st
  = match load_pending (default ∅ (pending st))
            (glob_json (default ∅ (pending st))) with
    | inl e => Raised e st
    | inr [] => Returned tt (print Stdout NoPending st)
    | inr posts =>
        match sort_posts scheduled_at_key posts with
        | inl e => Raised e st
        | inr sorted =>
            print_entries (list_entry P) sorted
              (print Stdout (ListHeader (List.length sorted)) st)
        end
    end.
Proof.
  unfold cmd_list. destruct (pending st); simpl; [reflexivity|].
  now rewrite glob_json_empty.
Qed.

Lemma cmd_history_default st :
  cmd_history st
  = match load_all (default ∅ (done st)) (glob_json (default ∅ (done st))) with
    | inl e => Raised e st
    | inr [] => Returned tt (print Stdout NoHistory st)
    | inr posts =>
        match sort_posts_reverse posted_at_key posts with
        | inl e => Raised e st
        | inr sorted =>
            print_history sorted
              (print Stdout (HistoryHeader (List.length sorted)) st)
        end
    end.
Proof.
  unfold cmd_history. destruct (done st); simpl; [reflexivity|].
  now rewrite glob_json_empty.
Qed.

End OtherFiles.

(** X14. What [list] prints and the error it may end with depend on the
    [*.json] files of the pending directory only, names that begin with
    [._] apart; [history] depends in the same way on those of the archive.
    Files under other names, and a directory that is missing rather than
    empty, make no difference. *)
Theorem listings_read_the_json_files_only (P : Platform) (st st' : state P) :
  out st' = out st ->
  ((forall f, json_name f = true -> pending_file st' f = pending_file st f) ->
   out (final (cmd_list st')) = out (final (cmd_list st)) /\
   raised (cmd_list st') = raised (cmd_list st)) /\
  ((forall f, json_name f = true -> done_file st' f = done_file st f) ->
   out (final (cmd_history st')) = out (final (cmd_history st)) /\
   raised (cmd_history st') = raised (cmd_history st)).
Proof.
  intros Ho. split; intros Hsame.
  - rewrite !cmd_list_default.
    rewrite (listing_input_agree load_pending (pending st') (pending st)
               load_pending_agree Hsame).
    destruct (load_pending _ _) as [e|[|p posts]]; simpl; [now split| |].
    + now rewrite Ho.
    + destruct (sort_posts scheduled_at_key (p :: posts)) as [e|sorted];
        simpl; [now split|].
      apply print_entries_agree. simpl. now rewrite Ho.
  - rewrite !cmd_history_default.
    rewrite (listing_input_agree load_all (done st') (done st)
               load_all_agree Hsame).
    destruct (load_all _ _) as [e|[|p posts]]; simpl; [now split| |].
    + now rewrite Ho.
    + destruct (sort_posts_reverse posted_at_key (p :: posts)) as [e|sorted];
        simpl; [now split|].
      apply print_history_agree. simpl. now rewrite Ho.
Qed.

(** X13. The id [add] makes depends on the scheduled time and on the
    local time it reads, not on the text: two runs of [add] for one
    scheduled time that read the same local time make one id, and the
    second record replaces the first in its file; no other file changes. *)
Theorem add_id_depends_on_the_times_only (P : Platform) (st st1 st2 : state P)
    (args1 args2 : add_args) (p1 p2 : dict) :
  cmd_add args1 st = Returned p1 st1 ->
  cmd_add args2 st1 = Returned p2 st2 ->
  parse_scheduled P (arg_datetime args1) = parse_scheduled P (arg_datetime args2) ->
  id_reading st = id_reading st1 ->
  exists post_id,
    dict_get "id" p1 = Some (JStr post_id) /\
    dict_get "id" p2 = Some (JStr post_id) /\
    pending_file st1 (post_id +:+ ".json") = Some (JsonObject p1) /\
    pending_file st2 (post_id +:+ ".json") = Some (JsonObject p2) /\
    forall f, f <> post_id +:+ ".json" -> pending_file st2 f = pending_file st f.
Proof.
  intros Hadd1 Hadd2 Hparse Hread.
  destruct (cmd_add_returned _ _ _ _ Hadd1)
    as (s1 & _ & [tz1 Hz1] & Hp1 & _).
  destruct (cmd_add_returned _ _ _ _ Hadd2)
    as (s2 & _ & [tz2 Hz2] & Hp2 & _).
  assert (s2 = s1) as -> by congruence.
  pose proof (cmd_add_parsed args1 st tz1 s1 Hz1 Hp1) as Hrun1.
  pose proof (cmd_add_parsed args2 st1 tz2 s1 Hz2 Hp2) as Hrun2.
  cbv zeta in Hrun1, Hrun2. fold (id_reading st) in Hrun1.
  fold (id_reading st1) in Hrun2. rewrite <- Hread in Hrun2.
  set (post_id := generate_post_id s1 (id_reading st)) in *.
  rewrite Hrun1 in Hadd1. rewrite Hrun2 in Hadd2.
  injection Hadd1 as Hpost1 Hst1. injection Hadd2 as Hpost2 Hst2.
  exists post_id.
  split; [now rewrite <- Hpost1|]. split; [now rewrite <- Hpost2|].
  assert (Hpend1 : pending st1
            = Some (<[post_id +:+ ".json" := JsonObject p1]> (default ∅ (pending st)))).
  { rewrite <- Hst1, <- Hpost1. reflexivity. }
  assert (Hpend2 : pending st2
            = Some (<[post_id +:+ ".json" := JsonObject p2]> (default ∅ (pending st1)))).
  { rewrite <- Hst2, <- Hpost2. reflexivity. }
  unfold pending_file. rewrite Hpend2, Hpend1. simpl.
  split; [apply lookup_insert_eq|]. split; [apply lookup_insert_eq|].
  intros f Hne. rewrite !lookup_insert_ne by congruence.
  destruct (pending st); simpl; [reflexivity|apply lookup_empty].
Qed.

(** X16. A run of [post-due] that follows [add], on a pending directory
    of well-formed records, returns. If the [scheduled_at] that [add]
    wrote, as [fromisoformat] reads it, is at or before the clock reading
    of the run, [post_to_x] is called with the new record and the record
    leaves the pending directory for the archive; if it is later, the
    record stays and no call is made for it. *)
Theorem added_post_is_published_when_due (P : Platform) (st st1 : state P)
    (args : add_args) (post : dict) (d : PyTime.datetime) :
  cmd_add args st = Returned post st1 ->
  every_file (runnable P) (default ∅ (pending st)) = true ->
  (forall s, dict_get "scheduled_at" post = Some (JStr s) ->
             fromisoformat P s = Some d) ->
  let now := PyTime.utc (fst (clock P (env st1))) in
  let due := PyTime.instant (PyTime.assume_utc d) in
  exists st2 new post_id,
    cmd_post_due st1 = Returned tt st2 /\
    calls st2 = calls st1 ++ new /\
    dict_get "id" post = Some (JStr post_id) /\
    (due <= PyTime.instant now ->
     (post_id +:+ ".json", post) ∈ new /\
     pending_file st2 (post_id +:+ ".json") = None /\
     archived_terminal st2 (post_id +:+ ".json")) /\
    (PyTime.instant now < due ->
     pending_file st2 (post_id +:+ ".json") = Some (JsonObject post) /\
     post_id +:+ ".json" ∉ map fst new).
Proof.
  intros Hadd Hold Hiso now due.
  destruct (cmd_add_returned _ _ _ _ Hadd)
    as (scheduled & local_now & [tz Hz] & Hparse & Hid & _ & Hpend & Hp & _).
  pose proof (cmd_add_parsed args st tz scheduled Hz Hparse) as Hrun.
  cbv zeta in Hrun. rewrite Hrun in Hadd. injection Hadd as Hpost _.
  clear Hrun.
  set (post_id := generate_post_id scheduled local_now) in *.
  set (name := post_id +:+ ".json") in *.
  set (dir := <[name := JsonObject post]> (default ∅ (pending st))) in *.
  assert (Hname : json_name name = true) by apply json_name_generated.
  assert (Hinst : scheduled_instant P post = Some due).
  { unfold scheduled_instant.
    destruct (dict_get "scheduled_at" post) as [[| | |s]|] eqn:Hs;
      try (rewrite <- Hpost in Hs; discriminate).
    now rewrite (Hiso s eq_refl). }
  assert (Hall : forall f x, json_name f = true -> dir !! f = Some x ->
                             runnable P x = true).
  { intros f x Hj Hx. unfold dir in Hx.
    destruct (decide (f = name)) as [->|Hne].
    - rewrite lookup_insert_eq in Hx. injection Hx as <-.
      unfold runnable. now rewrite Hpend, Hinst, Hid.
    - rewrite lookup_insert_ne in Hx by congruence.
      exact (proj1 (every_file_spec _ _) Hold f x Hj Hx). }
  rewrite (cmd_post_due_unfold st1 dir Hp). fold now.
  set (st0 := set_env _ _).
  assert (Hfile : forall g, pending_file st0 g = dir !! g).
  { intros g. unfold pending_file, st0. simpl. now rewrite Hp. }
  destruct (post_due_loop_total now (glob_json dir) st0 0%nat (glob_json_NoDup dir))
    as (n & st' & Hloop).
  { intros f e [Hj [x Hx]]%glob_json_elem. rewrite Hfile, Hx.
    apply examine_runnable. now apply (Hall f x). }
  rewrite Hloop.
  destruct (post_due_loop_returned _ _ _ _ _ _ (glob_json_NoDup dir) Hloop)
    as (_ & _ & (new & Hc & Hm & Hnew) & Hdue & Hrest).
  assert (Hex : examine P now (pending_file st0 name)
                = if PyTime.instant now <? due then Skip
                  else Publish post (JStr post_id)).
  { rewrite Hfile. unfold dir. rewrite lookup_insert_eq.
    now rewrite (examine_pending now post due Hpend Hinst), Hid. }
  assert (Hglob : name ∈ glob_json dir).
  { apply glob_json_elem. split; [exact Hname|].
    unfold dir. rewrite lookup_insert_eq. eauto. }
  exists (print Stdout (Completed n) st'), new, post_id.
  split; [reflexivity|]. split; [exact Hc|]. split; [exact Hid|]. split.
  - intros Hle.
    destruct (Z.ltb_spec (PyTime.instant now) due) as [|_]; [lia|].
    assert (Hin : name ∈ due_names now st0 (glob_json dir)).
    { apply due_names_elem. split; [exact Hglob|].
      unfold is_due. now rewrite Hex. }
    destruct (Hdue name Hin) as (Hnone & archived & Hdone & Hterm).
    split; [|split; [exact Hnone|exists archived; split; assumption]].
    rewrite <- Hm in Hin. apply list_elem_of_fmap in Hin as ([g data] & Hg & Hin).
    simpl in Hg. subst g. destruct (Hnew name data Hin) as [id' Hpub].
    rewrite Hex in Hpub. injection Hpub as <- _. exact Hin.
  - intros Hlt.
    destruct (Z.ltb_spec (PyTime.instant now) due) as [_|]; [|lia].
    assert (Hnot : name ∉ due_names now st0 (glob_json dir)).
    { intros [_ Hd]%due_names_elem. unfold is_due in Hd. now rewrite Hex in Hd. }
    destruct (Hrest name Hnot) as [Hsame _]. split.
    + change (pending_file st' name = Some (JsonObject post)).
      rewrite Hsame, Hfile. unfold dir. apply lookup_insert_eq.
    + now rewrite Hm.
Qed.

(** * The properties on the examples *)

Lemma returned_final {P : Platform} {A : Type} (o : outcome P A) (a : A) :
  returned o = Some a -> o = Returned a (final o).
Proof. destruct o; simpl; congruence. Qed.





Lemma cancel_looks_at_the_file_name_only_witness :
  pending_file (final (cmd_cancel "20260101_090000_123abc" Sample.misfiled))
    "20260101_090000_123abc.json" = None.
Proof.
  exact (proj2 (proj2 (proj2
           (cancel_looks_at_the_file_name_only Demo.platform Sample.misfiled
              "20260101_090000_123abc" eq_refl)))
           Sample.archived eq_refl eq_refl).
Defined.

Lemma add_rejects_unparseable_datetime_witness :
  exists e st',
    cmd_add Sample.bad_datetime_args Sample.empty = Raised e st' /\
    (forall f, pending_file st' f = pending_file Sample.empty f) /\
    done st' = done Sample.empty /\
    e = SystemExit 1 /\
    out st' = [ (Stderr, BadDatetime "tomorrow morning");
                (Stderr, DatetimeFormatHint) ].
Proof.
  destruct (add_rejects_unparseable_datetime Demo.platform Sample.empty
              Sample.bad_datetime_args eq_refl)
    as (e & st' & Hrun & Hp & Hd & Hknown & _).
  exists e, st'. destruct Hknown as [He Ho]; [vm_compute; eauto|].
  auto.
Defined.


Lemma directory_of_lookup posts f x :
  Sample.directory_of posts !! f = Some x ->
  exists p, p ∈ posts /\ f = Sample.file_of p /\ x = JsonObject p.
Proof.
  induction posts as [|p posts IH]; simpl.
  - now rewrite lookup_empty.
  - intros [[<- <-]|[_ H]]%lookup_insert_Some.
    + exists p. split; [left|auto].
    + destruct (IH H) as (q & Hq & Hf & Hx). exists q. split; [now right|auto].
Defined.

Lemma in_use_one_location : one_location Sample.in_use.
Proof.
  repeat split.
  - intros f x _ (p & Hp & -> & ->)%directory_of_lookup.
    apply list_elem_of_In in Hp as [<-|[]]. now exists Sample.later.
  - intros f x _ (p & Hp & -> & ->)%directory_of_lookup.
    apply list_elem_of_In in Hp as [<-|[]]. now exists Sample.archived.
  - intros f _ [x (p & Hp & -> & ->)%directory_of_lookup]
               [y (q & Hq & Hf & ->)%directory_of_lookup].
    apply list_elem_of_In in Hp as [<-|[]].
    apply list_elem_of_In in Hq as [<-|[]]. discriminate.
Defined.


Lemma list_shows_pending_posts_in_text_order_witness :
  exists st' shown,
    cmd_list Sample.two_zones = Returned tt st' /\
    out st' = out Sample.two_zones ++ shown /\
    Permutation (listed shown) [Sample.utc_morning; Sample.tokyo_morning] /\
    Sorted scheduled_text_le (listed shown).
Proof.
  destruct (list_shows_pending_posts_in_text_order Demo.platform Sample.two_zones)
    as (_ & Hshown & Htotal).
  destruct (Htotal _ eq_refl eq_refl) as [st' Hrun].
  destruct (Hshown _ st' eq_refl Hrun) as (shown & Ho & Hperm & _ & Hsorted & _).
  exists st', shown. split; [exact Hrun|]. split; [exact Ho|].
  split; [exact Hperm|exact Hsorted].
Defined.

Lemma listings_fail_on_files_they_cannot_read_witness :
  raises (cmd_list Sample.with_garbage).
Proof.
  exact (proj2 (proj1 (listings_fail_on_files_they_cannot_read Demo.platform
                         Sample.with_garbage) _ eq_refl) eq_refl).
Defined.

(** C4, as stated, fails: of two pending posts added under different time
    zones, [list] shows the one scheduled for 08:00 UTC before the one
    scheduled for 09:00 in Tokyo, which is 00:00 UTC of the same day. *)
Lemma list_order_is_not_chronological :
  exists st',
    cmd_list Sample.two_zones = Returned tt st' /\
    listed (out st') = [Sample.utc_morning; Sample.tokyo_morning] /\
    ~ chronological Demo.platform (listed (out st')).
Proof.
  exists (final (cmd_list Sample.two_zones)).
  split; [apply returned_final; vm_compute; reflexivity|].
  assert (Hl : listed (out (final (cmd_list Sample.two_zones)))
               = [Sample.utc_morning; Sample.tokyo_morning])
    by (vm_compute; reflexivity).
  split; [exact Hl|]. rewrite Hl.
  intros H. inversion H as [|? ? _ Hhd]; subst.
  inversion Hhd as [|? ? (a & b & Ha & Hb & Hle)]; subst.
  vm_compute in Ha, Hb. injection Ha as <-. injection Hb as <-.
  vm_compute in Hle. now apply Hle.
Qed.

(** C5, as stated, fails: [add] with an empty text and a date and time it
    can read returns and writes a record whose text is empty. *)
Lemma add_accepts_empty_text :
  exists post st' name,
    cmd_add Sample.empty_text_args Sample.empty = Returned post st' /\
    arg_text Sample.empty_text_args = "" /\
    dict_get "text" post = Some (JStr "") /\
    pending_file Sample.empty name = None /\
    pending_file st' name = Some (JsonObject post).
Proof.
  exists (default [] (returned (cmd_add Sample.empty_text_args Sample.empty))),
         (final (cmd_add Sample.empty_text_args Sample.empty)),
         "20260225_090000_96072f.json".
  split; [apply returned_final; vm_compute; reflexivity|].
  repeat split; vm_compute; reflexivity.
Qed.

(** C10, as stated, fails: a file [notes.json] that holds [{}], which is no
    post record, does not make [list] fail; it is passed over. *)
Lemma list_passes_over_an_object_that_is_no_record :
  json_name "notes.json" = true /\
  pending_file Sample.with_stray_object "notes.json" = Some (JsonObject []) /\
  post_record (JsonObject []) = false /\
  exists st',
    cmd_list Sample.with_stray_object = Returned tt st' /\
    out st' = [(Stdout, NoPending)].
Proof.
  split; [reflexivity|]. split; [vm_compute; reflexivity|].
  split; [reflexivity|].
  exists (final (cmd_list Sample.with_stray_object)).
  split; [apply returned_final|]; vm_compute; reflexivity.
Qed.

(** ** The rest of the program on the examples *)

Lemma history_shows_the_archive_latest_first_witness :
  exists st' shown,
    cmd_history Sample.in_use = Returned tt st' /\
    out st' = out Sample.in_use ++ shown /\
    Permutation (history_listed shown) [Sample.archived] /\
    Sorted history_ge (history_listed shown).
Proof.
  destruct (history_shows_the_archive_latest_first Demo.platform Sample.in_use)
    as (_ & Hshown & Htotal).
  destruct (Htotal _ eq_refl eq_refl) as [st' Hrun].
  destruct (Hshown _ st' eq_refl Hrun) as (shown & Ho & Hperm & _ & Hsorted & _).
  exists st', shown. split; [exact Hrun|]. split; [exact Ho|].
  split; [exact Hperm|exact Hsorted].
Defined.

Lemma successful_publish_is_archived_witness :
  exists st' archived,
    post_due_loop (PyTime.utc (Demo.at_time 2026 2 25 0 0 1))
      [Sample.file_of Sample.hello] 0 Sample.two_posts
    = post_due_loop (PyTime.utc (Demo.at_time 2026 2 25 0 0 1)) [] 1 st' /\
    done_file st' (Sample.file_of Sample.hello) = Some (JsonObject archived) /\
    pending_file st' (Sample.file_of Sample.hello) = None /\
    dict_get "status" archived = Some (JStr "posted") /\
    dict_get "tweet_id" archived = Some (JStr "1") /\
    dict_get "tweet_url" archived = Some (JStr "https://x.com/i/status/1") /\
    dict_get "text" archived = Some (JStr "Hello").
Proof.
  destruct (successful_publish_is_archived Demo.platform
              (PyTime.utc (Demo.at_time 2026 2 25 0 0 1)) Sample.two_posts
              (Sample.file_of Sample.hello) [] 0 Sample.hello
              (PyTime.instant (PyTime.DateTime (Demo.at_time 2026 2 25 9 0 0)
                                 (Some 32400)))
              Cases.hello_result Sample.clock
              eq_refl eq_refl eq_refl)
    as (st' & archived & text & response & id & Hloop & Hdone & Hpend & Htext
        & Hc & Hid & Hstatus & _ & Htid & Hurl & Hkeep).
  - vm_compute. discriminate.
  - vm_compute. eauto.
  - reflexivity.
  - vm_compute in Htext. injection Htext as <-.
    vm_compute in Hc. injection Hc as <-. vm_compute in Hid. injection Hid as <-.
    exists st', archived. repeat split; try assumption.
    rewrite Hkeep; [reflexivity|]. unfold outcome_keys.
    rewrite !not_elem_of_cons. repeat split; try discriminate.
    apply not_elem_of_nil.
Defined.

Lemma post_due_counts_every_call_witness :
  exists st' new shown,
    cmd_post_due Sample.two_posts = Returned tt st' /\
    calls st' = calls Sample.two_posts ++ new /\
    out st' = out Sample.two_posts ++ shown
              ++ [(Stdout, Completed (List.length new))] /\
    List.length shown = (2 * List.length new)%nat.
Proof.
  exists (final (cmd_post_due Sample.two_posts)).
  assert (Hrun : cmd_post_due Sample.two_posts
                 = Returned tt (final (cmd_post_due Sample.two_posts)))
    by (apply returned_final; vm_compute; reflexivity).
  destruct (post_due_counts_every_call Demo.platform Sample.two_posts _ _
              eq_refl Hrun) as (new & shown & Hc & _ & Ho & Hlen & _).
  exists new, shown. auto.
Defined.

Lemma post_due_touches_only_what_it_publishes_witness :
  pending_file (final (cmd_post_due Sample.two_posts)) (Sample.file_of Sample.later)
  = Some (JsonObject Sample.later) /\
  done_file (final (cmd_post_due Sample.two_posts)) (Sample.file_of Sample.later)
  = None.
Proof.
  apply (post_due_touches_only_what_it_publishes Demo.platform Sample.two_posts
           (Sample.file_of Sample.later)).
  right. vm_compute. reflexivity.
Defined.

Lemma post_to_x_checks_before_it_sends_witness :
  post_to_x Demo.platform Cases.textless Sample.clock
  = (inl (PKeyError "text"), Sample.clock).
Proof.
  refine (proj1 (proj2 (proj2 (post_to_x_checks_before_it_sends Demo.platform
                                 Cases.textless Sample.clock)))
            eq_refl _ eq_refl).
  intros k _. reflexivity.
Defined.

Lemma unreadable_file_blocks_the_files_after_it_witness :
  exists st' new,
    cmd_post_due Sample.with_garbage = Raised JSONDecodeError st' /\
    calls st' = calls Sample.with_garbage ++ new /\
    pending_file st' "junk.json" = Some NotJson.
Proof.
  destruct (unreadable_file_blocks_the_files_after_it Demo.platform
              Sample.with_garbage
              (<["junk.json" := NotJson]> (Sample.directory_of [Sample.hello]))
              [Sample.file_of Sample.hello] [] "junk.json" JSONDecodeError
              eq_refl)
    as (st' & new & Hrun & Hc & _ & Hlater).
  - vm_compute. reflexivity.
  - intros g e' Hg. apply elem_of_cons in Hg as [->|Hg]; [|inversion Hg].
    vm_compute. discriminate.
  - vm_compute. reflexivity.
  - exists st', new. split; [exact Hrun|]. split; [exact Hc|].
    destruct (Hlater "junk.json") as [-> _]; [left|]. vm_compute. reflexivity.
Defined.


Lemma cancel_undoes_add_witness :
  exists post st1 st2 post_id,
    cmd_add Sample.hello_args Sample.in_use = Returned post st1 /\
    cmd_cancel post_id st1 = Returned tt st2 /\
    (forall f, f <> post_id +:+ ".json" ->
               pending_file st2 f = pending_file Sample.in_use f) /\
    pending_file st2 (post_id +:+ ".json") = None /\
    done st2 = done Sample.in_use.
Proof.
  exists (default [] (returned (cmd_add Sample.hello_args Sample.in_use))),
         (final (cmd_add Sample.hello_args Sample.in_use)).
  assert (Hrun : cmd_add Sample.hello_args Sample.in_use
                 = Returned
                     (default [] (returned (cmd_add Sample.hello_args Sample.in_use)))
                     (final (cmd_add Sample.hello_args Sample.in_use)))
    by (apply returned_final; vm_compute; reflexivity).
  destruct (cancel_undoes_add Demo.platform _ _ _ _ "20260225_090000_96072f"
              Hrun) as (_ & st2 & Hcancel & Hfiles & Hd & _).
  - vm_compute. reflexivity.
  - exists st2, "20260225_090000_96072f". split; [exact Hrun|].
    split; [exact Hcancel|]. split; [|split; [|exact Hd]].
    + intros f Hne. rewrite Hfiles. now destruct (decide _).
    + rewrite Hfiles. now destruct (decide _).
Defined.

Lemma added_post_is_listed_witness :
  exists post st1 st2 shown,
    cmd_add Sample.hello_args Sample.two_zones = Returned post st1 /\
    cmd_list st1 = Returned tt st2 /\
    out st2 = out st1 ++ shown /\
    post ∈ listed shown.
Proof.
  exists (default [] (returned (cmd_add Sample.hello_args Sample.two_zones))),
         (final (cmd_add Sample.hello_args Sample.two_zones)).
  assert (Hrun : cmd_add Sample.hello_args Sample.two_zones
                 = Returned
                     (default [] (returned (cmd_add Sample.hello_args Sample.two_zones)))
                     (final (cmd_add Sample.hello_args Sample.two_zones)))
    by (apply returned_final; vm_compute; reflexivity).
  destruct (added_post_is_listed Demo.platform _ _ _ _ Hrun eq_refl)
    as (st2 & shown & Hlist & Ho & Hin & _).
  - intros s Hs. vm_compute in Hs. injection Hs as <-. vm_compute. eauto.
  - exists st2, shown. auto.
Defined.

Lemma cancelled_post_is_not_listed_witness :
  exists st1 st2 shown,
    cmd_cancel "20260225_090000_aaaaaa" Sample.two_zones = Returned tt st1 /\
    cmd_list st1 = Returned tt st2 /\
    out st2 = out st1 ++ shown /\
    (Sample.tokyo_morning ∉ listed shown) /\
    (Sample.utc_morning ∈ listed shown).
Proof.
  exists (final (cmd_cancel "20260225_090000_aaaaaa" Sample.two_zones)),
         (final (cmd_list
                   (final (cmd_cancel "20260225_090000_aaaaaa" Sample.two_zones)))).
  assert (Hcancel : cmd_cancel "20260225_090000_aaaaaa" Sample.two_zones
                    = Returned tt (final (cmd_cancel "20260225_090000_aaaaaa"
                                            Sample.two_zones)))
    by (apply returned_final; vm_compute; reflexivity).
  assert (Hlist : cmd_list (final (cmd_cancel "20260225_090000_aaaaaa"
                                     Sample.two_zones))
                  = Returned tt
                      (final (cmd_list (final (cmd_cancel "20260225_090000_aaaaaa"
                                                 Sample.two_zones)))))
    by (apply returned_final; vm_compute; reflexivity).
  destruct (cancelled_post_is_not_listed Demo.platform Sample.two_zones _ _
              (Sample.directory_of [Sample.tokyo_morning; Sample.utc_morning])
              "20260225_090000_aaaaaa" eq_refl Hcancel Hlist)
    as (shown & Ho & Hshown).
  exists shown. split; [exact Hcancel|]. split; [exact Hlist|].
  split; [exact Ho|]. split.
  - intros (f & Hne & _ & Hf & _)%Hshown.
    apply directory_of_lookup in Hf as (p & Hp & -> & Heq).
    injection Heq as <-. now apply Hne.
  - apply Hshown. exists (Sample.file_of Sample.utc_morning).
    split; [discriminate|]. repeat split; vm_compute; reflexivity.
Defined.

Lemma record_without_text_breaks_history_witness :
  exists st' archived,
    process_file (PyTime.utc (Demo.at_time 2026 2 25 0 0 1))
      "20260225_083000_0dd0dd.json" Cases.with_textless = Returned true st' /\
    done_file st' "20260225_083000_0dd0dd.json" = Some (JsonObject archived) /\
    dict_get "status" archived = Some (JStr "failed") /\
    raises (cmd_history st').
Proof.
  destruct (record_without_text_breaks_history Demo.platform
              (PyTime.utc (Demo.at_time 2026 2 25 0 0 1)) Cases.with_textless
              "20260225_083000_0dd0dd.json" Cases.textless
              (PyTime.instant (PyTime.DateTime (Demo.at_time 2026 2 25 8 30 0)
                                 (Some 32400)))
              eq_refl eq_refl eq_refl eq_refl)
    as (st' & archived & Hrun & _ & Hdone & Hstatus & Hraises).
  - vm_compute. discriminate.
  - vm_compute. eauto.
  - reflexivity.
  - exists st', archived. auto.
Defined.

Lemma add_id_depends_on_the_times_only_witness :
  exists p1 st1 p2 st2 post_id,
    cmd_add Sample.hello_args Cases.stopped_clock = Returned p1 st1 /\
    cmd_add Cases.other_text_args st1 = Returned p2 st2 /\
    dict_get "text" p1 = Some (JStr "Hello") /\
    dict_get "text" p2 = Some (JStr "Another") /\
    pending_file st1 (post_id +:+ ".json") = Some (JsonObject p1) /\
    pending_file st2 (post_id +:+ ".json") = Some (JsonObject p2).
Proof.
  set (o1 := cmd_add Sample.hello_args Cases.stopped_clock).
  set (o2 := cmd_add Cases.other_text_args (final o1)).
  exists (default [] (returned o1)), (final o1),
         (default [] (returned o2)), (final o2).
  assert (H1 : o1 = Returned (default [] (returned o1)) (final o1))
    by (apply returned_final; vm_compute; reflexivity).
  assert (H2 : o2 = Returned (default [] (returned o2)) (final o2))
    by (apply returned_final; vm_compute; reflexivity).
  destruct (add_id_depends_on_the_times_only Demo.platform _ _ _ _ _ _ _
              H1 H2 eq_refl eq_refl)
    as (post_id & _ & _ & Hf1 & Hf2 & _).
  exists post_id. split; [exact H1|]. split; [exact H2|].
  split; [vm_compute; reflexivity|]. split; [vm_compute; reflexivity|].
  split; [exact Hf1|exact Hf2].
Defined.

Lemma listings_read_the_json_files_only_witness :
  out (final (cmd_list Cases.with_other_files))
  = out (final (cmd_list Sample.two_zones)) /\
  raised (cmd_list Cases.with_other_files) = raised (cmd_list Sample.two_zones).
Proof.
  apply (proj1 (listings_read_the_json_files_only Demo.platform Sample.two_zones
                  Cases.with_other_files eq_refl)).
  intros f Hj.
  unfold pending_file, Cases.with_other_files, Sample.two_zones, Demo.start.
  cbn [pending mbind option_bind].
  do 2 (rewrite lookup_insert_ne by (intros <-; discriminate Hj)). reflexivity.
Defined.

Lemma history_shows_what_post_due_archived_witness :
  exists st1 st2 new shown,
    cmd_post_due Sample.two_posts = Returned tt st1 /\
    cmd_history st1 = Returned tt st2 /\
    calls st1 = calls Sample.two_posts ++ new /\
    out st2 = out st1 ++ shown /\
    forall f, f ∈ map fst new ->
      exists d, done_file st1 f = Some (JsonObject d) /\ d ∈ history_listed shown.
Proof.
  set (o1 := cmd_post_due Sample.two_posts).
  set (o2 := cmd_history (final o1)).
  assert (H1 : o1 = Returned tt (final o1))
    by (apply returned_final; vm_compute; reflexivity).
  assert (H2 : o2 = Returned tt (final o2))
    by (apply returned_final; vm_compute; reflexivity).
  destruct (history_shows_what_post_due_archived Demo.platform Sample.two_posts
              _ _ _ eq_refl H1 H2) as (new & shown & Hc & Ho & Hall).
  exists (final o1), (final o2), new, shown.
  split; [exact H1|]. split; [exact H2|]. split; [exact Hc|]. split; [exact Ho|].
  intros f Hf. destruct (Hall f Hf) as (d & Hd & _ & Hin). eauto.
Defined.

Lemma added_post_is_published_when_due_witness :
  exists post st1 st2 new post_id,
    cmd_add Sample.hello_args Sample.empty = Returned post st1 /\
    cmd_post_due st1 = Returned tt st2 /\
    calls st2 = calls st1 ++ new /\
    (post_id +:+ ".json", post) ∈ new /\
    pending_file st2 (post_id +:+ ".json") = None.
Proof.
  set (o1 := cmd_add Sample.hello_args Sample.empty).
  assert (H1 : o1 = Returned (default [] (returned o1)) (final o1))
    by (apply returned_final; vm_compute; reflexivity).
  destruct (added_post_is_published_when_due Demo.platform Sample.empty _
              Sample.hello_args _
              (PyTime.DateTime (Demo.at_time 2026 2 25 9 0 0) (Some 32400))
              H1 eq_refl)
    as (st2 & new & post_id & Hrun & Hc & _ & Hdue & _).
  - intros s Hs. vm_compute in Hs. injection Hs as <-. vm_compute. reflexivity.
  - destruct Hdue as (Hin & Hnone & _); [vm_compute; discriminate|].
    exists (default [] (returned o1)), (final o1), st2, new, post_id. auto.
Defined.
